(** * All-Model-Chat: the network interceptor and its error utilities

    A shallow embedding of [services/networkInterceptor.ts] and
    [utils/errorUtils.ts].

    Conventions.
    - A JavaScript string is a [string]: a sequence of code units.  All the
      string primitives the sources use ([includes], [replace],
      [startsWith], [toLowerCase]) act on code units, and are modelled on
      [string] below.  [toLowerCase] is modelled on ASCII letters only.
    - The browser built-ins the sources call but do not define ([URL],
      [URLSearchParams], [Request]) are an interface, [WebPlatform]; the
      module's functions are written over an arbitrary instance.  One
      instance, [Model.platform], implements that interface for
      hierarchical URLs ([scheme://userinfo@host/path?query#fragment]) and is
      used to evaluate the functions on concrete inputs.
    - Code that may throw runs in the monad [M]: a trace of the observable
      effects (dispatches to the real transport, log entries) together with
      either a returned value or a thrown value. *)

From Stdlib Require Import String Ascii List Bool Arith Lia.
From Equations Require Import Equations.
From Equations.Prop Require Import Logic.
Import ListNotations.
Open Scope list_scope.
Open Scope string_scope.

(* ================================================================== *)
(** ** JavaScript string primitives *)
(* ================================================================== *)

Module JSString.

(** [s.startsWith(p)] *)
Definition startsWith (s p : string) : bool := String.prefix p s.

(** [s.includes(p)] *)
Fixpoint includes (s p : string) : bool :=
  String.prefix p s
  || match s with
     | EmptyString => false
     | String _ s' => includes s' p
     end.

Fixpoint drop (n : nat) (s : string) : string :=
  match n, s with
  | O, _ => s
  | S _, EmptyString => EmptyString
  | S n', String _ s' => drop n' s'
  end.

(** The first occurrence of [p] in [s]: the text before it and the text
    after it. *)
Fixpoint split_first (s p : string) : option (string * string) :=
  if String.prefix p s then Some (EmptyString, drop (String.length p) s)
  else match s with
       | EmptyString => None
       | String c s' =>
           match split_first s' p with
           | Some (before, after) => Some (String c before, after)
           | None => None
           end
       end.

Definition is_char (a c : ascii) : bool := Ascii.eqb a c.

(** ECMAScript [GetSubstitution] for a string pattern (no capture
    groups): in the replacement text [$$] stands for a dollar sign, [$&]
    for the matched text, [$`] for the text before the match and [$'] for
    the text after it; every other character, and every other use of [$],
    is copied. *)
Fixpoint get_substitution (matched before after template : string) : string :=
  match template with
  | EmptyString => EmptyString
  | String c rest =>
      match rest with
      | String d rest' =>
          if is_char c "$" then
            if is_char d "$" then
              String "$" (get_substitution matched before after rest')
            else if is_char d "&" then
              matched ++ get_substitution matched before after rest'
            else if is_char d "`" then
              before ++ get_substitution matched before after rest'
            else if is_char d "'" then
              after ++ get_substitution matched before after rest'
            else String c (get_substitution matched before after rest)
          else String c (get_substitution matched before after rest)
      | EmptyString => String c EmptyString
      end
  end.

(** [s.replace(p, r)] with a string pattern [p]: only the first occurrence
    is replaced. *)
Definition replace (s p r : string) : string :=
  match split_first s p with
  | Some (before, after) => before ++ get_substitution p before after r ++ after
  | None => s
  end.

Definition lower_char (c : ascii) : ascii :=
  let n := nat_of_ascii c in
  if Nat.leb 65 n && Nat.leb n 90 then ascii_of_nat (n + 32) else c.

(** [s.toLowerCase()] *)
Fixpoint toLowerCase (s : string) : string :=
  match s with
  | EmptyString => EmptyString
  | String c s' => String (lower_char c) (toLowerCase s')
  end.

(** [s.replace(/\/$/, '')]: one trailing slash is removed. *)
Fixpoint strip_trailing_slash (s : string) : string :=
  match s with
  | EmptyString => EmptyString
  | String c EmptyString => if is_char c "/" then EmptyString else s
  | String c s' => String c (strip_trailing_slash s')
  end.

(** [s.replace(/([^:]\/)\/+/g, "$1")].  The scan goes left to right.  At a
    character [c] other than a colon that is followed by two slashes, the
    match takes [c], the slash, and every slash after it, and is replaced
    by [c] and one slash; the scan resumes behind the match.  [skipping]
    is set while the run of slashes of a match is being consumed. *)
Fixpoint collapse_slashes (skipping : bool) (s : string) : string :=
  match s with
  | EmptyString => EmptyString
  | String c rest =>
      if skipping && is_char c "/" then collapse_slashes true rest
      else
        match rest with
        | String c1 (String c2 rest') =>
            if negb (is_char c ":") && is_char c1 "/" && is_char c2 "/"
            then String c (String c1 (collapse_slashes true rest'))
            else String c (collapse_slashes false rest)
        | _ => String c (collapse_slashes false rest)
        end
  end.

(** [s] begins with a slash. *)
Definition leading_slash (s : string) : bool :=
  match s with
  | String c _ => is_char c "/"
  | EmptyString => false
  end.

(** [s] begins with two slashes. *)
Definition two_slashes (s : string) : bool :=
  match s with
  | String a rest => is_char a "/" && leading_slash rest
  | EmptyString => false
  end.

(** Truthiness of a string: the empty string is falsy. *)
Definition truthy (s : string) : bool :=
  match s with EmptyString => false | _ => true end.

Fixpoint join (sep : string) (l : list string) : string :=
  match l with
  | [] => EmptyString
  | [x] => x
  | x :: rest => x ++ sep ++ join sep rest
  end.

End JSString.

Import JSString.

(* ================================================================== *)
(** ** JavaScript values that are thrown and caught *)
(* ================================================================== *)

(** The constructor an error object was made with.  Every instance of
    [TypeError] is an instance of [Error]. *)
Inductive errorClass : Type :=
| ClsError
| ClsTypeError.

(** A value as far as the sources inspect it: an [Error] instance with its
    [name] and [message]; any other value that has a string form, carried
    with the result of [String(value)]; or a value without a string form,
    on which [String(value)] throws a [TypeError] (an object that has
    neither [toString] nor [valueOf], such as [Object.create(null)]). *)
Inductive jsval : Type :=
| VError (cls : errorClass) (name message : string)
| VOther (text : string)
| VOpaque.

Definition instanceof_Error (v : jsval) : bool :=
  match v with VError _ _ _ => true | _ => false end.

Definition instanceof_TypeError (v : jsval) : bool :=
  match v with VError ClsTypeError _ _ => true | _ => false end.

(** [new Error(message)] *)
Definition new_Error (message : string) : jsval := VError ClsError "Error" message.

(** [new TypeError(message)] *)
Definition new_TypeError (message : string) : jsval :=
  VError ClsTypeError "TypeError" message.

(** [e.name = n] *)
Definition set_name (v : jsval) (n : string) : jsval :=
  match v with
  | VError cls _ message => VError cls n message
  | _ => v
  end.

Definition error_name (v : jsval) : option string :=
  match v with VError _ n _ => Some n | _ => None end.

Definition error_message (v : jsval) : option string :=
  match v with VError _ _ m => Some m | _ => None end.

(* ================================================================== *)
(** ** utils/errorUtils.ts *)
(* ================================================================== *)

Module ErrorUtils.

Definition isNetworkError (error : jsval) : bool :=
  match error with
  | VError _ name message =>
      String.eqb name "NetworkError"
      || (instanceof_TypeError error && includes message "Load failed")
  | _ => false
  end.

(** [originalError] is an optional parameter: [None] is [undefined]. *)
Definition createNetworkError (contextMessage : string)
                              (originalError : option jsval) : jsval :=
  let errorMessage :=
    match originalError with
    | Some (VError _ _ m) => contextMessage ++ " Original error: " ++ m
    | _ => contextMessage
    end in
  let networkError := new_Error errorMessage in
  set_name networkError "NetworkError".

End ErrorUtils.

(* ================================================================== *)
(** ** Results, effects and the browser interface *)
(* ================================================================== *)

(** What running a piece of code ends in: a value, or a thrown value. *)
Inductive outcome (A : Type) : Type :=
| Returned (a : A)
| Thrown (e : jsval).

Arguments Returned {A} a.
Arguments Thrown {A} e.

Definition obind {A B : Type} (o : outcome A) (k : A -> outcome B) : outcome B :=
  match o with
  | Returned a => k a
  | Thrown e => Thrown e
  end.

(** [try { o } catch (e) { h e }] *)
Definition ocatch {A : Type} (o : outcome A) (h : jsval -> outcome A) : outcome A :=
  match o with
  | Returned a => Returned a
  | Thrown e => h e
  end.

(** [String(v)]: for an [Error], its name and message; for a value without
    a string form, a [TypeError] is thrown. *)
Definition String_of (v : jsval) : outcome string :=
  match v with
  | VError _ n m =>
      Returned (if truthy m then (if truthy n then n ++ ": " ++ m else m) else n)
  | VOther t => Returned t
  | VOpaque => Thrown (new_TypeError "Cannot convert object to primitive value")
  end.

(** The built-ins of the browser the module calls.
    - [URL_new s] is [new URL(s)]; [None] stands for the [TypeError] the
      constructor throws on a string that does not parse.
    - The getters and setters are those of the [URL] object; none of the
      setters throws.
    - [USP_new q] is the list of name/value pairs of
      [new URLSearchParams(q)], [USP_toString] its serialisation.
    - [Request_new url r] is [new Request(url, r)], which may throw. *)
Class WebPlatform : Type := {
  URLobj : Type;
  URL_new : string -> option URLobj;
  URL_protocol : URLobj -> string;
  URL_username : URLobj -> string;
  URL_password : URLobj -> string;
  URL_host : URLobj -> string;
  URL_search : URLobj -> string;
  URL_set_username : URLobj -> string -> URLobj;
  URL_set_password : URLobj -> string -> URLobj;
  URL_set_search : URLobj -> string -> URLobj;
  URL_set_hash : URLobj -> string -> URLobj;
  URL_toString : URLobj -> string;
  USP_new : string -> list (string * string);
  USP_toString : list (string * string) -> string;
  Request : Type;
  Request_url : Request -> string;
  Request_new : string -> Request -> outcome Request;
  RequestInit : Type;
  Response : Type
}.

Inductive logLevel : Type := LDebug | LInfo | LWarn | LError.

(* ================================================================== *)
(** ** The list behind a [URLSearchParams] object *)
(* ================================================================== *)

Module URLSearchParams.

Definition t : Type := list (string * string).

(** [params.delete(name)]: every pair whose name is exactly [name] goes. *)
Definition delete (name : string) (params : t) : t :=
  filter (fun p => negb (String.eqb (fst p) name)) params.

(** One step of the iterator of [params.entries()]: the iterator keeps an
    index into the list of the object itself, not a copy of it. *)
Definition entry_at (params : t) (index : nat) : option (string * string) :=
  nth_error params index.

End URLSearchParams.

(** [array.includes(x)] on an array of strings. *)
Definition Array_includes (l : list string) (x : string) : bool :=
  existsb (String.eqb x) l.

(* ================================================================== *)
(** ** services/networkInterceptor.ts: the sanitizer *)
(* ================================================================== *)

Definition TARGET_HOST : string := "generativelanguage.googleapis.com".

Definition sensitiveParams : list string :=
  ["key"; "apikey"; "api_key"; "token"; "access_token"; "auth"; "authorization"].

Definition MALFORMED_URL : string := "[malformed URL - unable to sanitize safely]".

Definition SENSITIVE_MARKER : string := "#sensitive_params_removed".

(** The loop
    [for (const [paramName, paramValue] of params.entries()) { ... }]
    of [sanitizeUrlForDisplay], from the iterator's index [index] on.  It
    deletes from [params] while the iterator runs over it.  The result is
    the final list and the final [hasSensitiveParams]. *)
Equations? redact_from (index : nat) (params : URLSearchParams.t)
    (hasSensitiveParams : bool) : URLSearchParams.t * bool
    by wf (length params - index) lt :=
  redact_from index params hasSensitiveParams
    with inspect (URLSearchParams.entry_at params index) := {
    | exist _ None _ => (params, hasSensitiveParams)
    | exist _ (Some (paramName, paramValue)) _ =>
        let lowerParamName := toLowerCase paramName in
        if Array_includes sensitiveParams lowerParamName
        then redact_from (S index) (URLSearchParams.delete paramName params) true
        else redact_from (S index) params hasSensitiveParams }.
Proof.
  all: assert (index < length params)
    by (apply nth_error_Some; unfold URLSearchParams.entry_at in e; congruence).
  - pose proof (filter_length_le
                  (fun p => negb (String.eqb (fst p) paramName)) params).
    unfold URLSearchParams.delete. lia.
  - lia.
Qed.

Section Sanitizer.

Context {P : WebPlatform}.

(** [new URL(s)] *)
Definition new_URL (s : string) : outcome URLobj :=
  match URL_new s with
  | Some u => Returned u
  | None => Thrown (new_TypeError "Invalid URL")
  end.

(** The body of the [try] block of [sanitizeUrlForDisplay]. *)
Definition sanitize_body (url : string) : outcome string :=
  obind (new_URL url) (fun urlObj =>
    let urlObj :=
      if truthy (URL_username urlObj) || truthy (URL_password urlObj)
      then URL_set_password (URL_set_username urlObj "") ""
      else urlObj in
    let params := USP_new (URL_search urlObj) in
    let '(params, hasSensitiveParams) := redact_from 0 params false in
    let urlObj := URL_set_search urlObj (USP_toString params) in
    let urlObj :=
      if hasSensitiveParams then URL_set_hash urlObj SENSITIVE_MARKER
      else urlObj in
    Returned (URL_toString urlObj)).

Definition sanitizeUrlForDisplay (url : string) : outcome string :=
  ocatch (sanitize_body url) (fun _ => Returned MALFORMED_URL).

End Sanitizer.

(* ================================================================== *)
(** ** services/networkInterceptor.ts: the configuration store *)
(* ================================================================== *)

(** The module variables [isInterceptorEnabled] and [currentProxyUrl];
    [None] is [null]. *)
Record Config : Type := {
  isInterceptorEnabled : bool;
  currentProxyUrl : option string
}.

(** Lines 64 and 65: the variables when the module loads. *)
Definition initialConfig : Config :=
  {| isInterceptorEnabled := false; currentProxyUrl := None |}.

(** [isInterceptorEnabled = false; currentProxyUrl = null], the two
    assignments of both failure branches of [configure]. *)
Definition disabledConfig : Config :=
  {| isInterceptorEnabled := false; currentProxyUrl := None |}.

(** Truthiness of a [string | null]. *)
Definition truthy_opt (s : option string) : bool :=
  match s with
  | Some s => truthy s
  | None => false
  end.

(** Line 74: [proxyUrl ? proxyUrl.replace(/\/$/, '') : null]. *)
Definition normalizeProxyUrl (proxyUrl : option string) : option string :=
  match proxyUrl with
  | Some p => if truthy p then Some (strip_trailing_slash p) else None
  | None => None
  end.

Section Configure.

Context {P : WebPlatform}.

(** [networkInterceptor.configure(enabled, proxyUrl)]: the entries written
    to the log service and the module variables when the call returns. *)
Definition configure (enabled : bool) (proxyUrl : option string)
  : list (logLevel * string) * Config :=
  let isInterceptorEnabled := enabled in
  let currentProxyUrl := normalizeProxyUrl proxyUrl in
  match currentProxyUrl with
  | Some proxy =>
      if isInterceptorEnabled && truthy proxy then
        match URL_new proxy with
        | Some url =>
            if negb (startsWith (URL_protocol url) "http") then
              ([(LWarn, "[NetworkInterceptor] Invalid proxy URL protocol: "
                          ++ URL_protocol url
                          ++ ". Expected http: or https:. Disabling interceptor.")],
               disabledConfig)
            else
              ([(LDebug, "[NetworkInterceptor] Configured. Target: " ++ proxy)],
               {| isInterceptorEnabled := isInterceptorEnabled;
                  currentProxyUrl := currentProxyUrl |})
        | None =>
            ([(LError, "[NetworkInterceptor] Invalid proxy URL format: " ++ proxy);
              (LWarn, "[NetworkInterceptor] Proxy interceptor disabled due to invalid URL configuration.")],
             disabledConfig)
        end
      else
        ([], {| isInterceptorEnabled := isInterceptorEnabled;
                currentProxyUrl := currentProxyUrl |})
  | None =>
      ([], {| isInterceptorEnabled := isInterceptorEnabled;
              currentProxyUrl := currentProxyUrl |})
  end.

(** The proxy URL [p] passes the validation of [configure]: it parses and
    its protocol starts with [http]. *)
Definition valid_proxy (p : string) : bool :=
  match URL_new p with
  | Some url => startsWith (URL_protocol url) "http"
  | None => false
  end.

End Configure.

(* ================================================================== *)
(** ** services/networkInterceptor.ts: the URL rewriting of [patchedFetch] *)
(* ================================================================== *)

Definition targetOrigin : string := "https://generativelanguage.googleapis.com".

(** Lines 134 to 175 of the source: [newUrl] from [urlStr] and the proxy
    URL, one [let] for each assignment. *)
Definition rewriteUrl (urlStr currentProxyUrl : string) : string :=
  let newUrl := replace urlStr targetOrigin currentProxyUrl in
  let newUrl :=
    if includes newUrl "/v1/v1beta/" then replace newUrl "/v1/v1beta/" "/v1/"
    else if includes newUrl "/v1/v1/" then replace newUrl "/v1/v1/" "/v1/"
    else newUrl in
  let newUrl :=
    if includes newUrl "aiplatform.googleapis.com"
       && negb (includes newUrl "publishers/google")
    then
      if includes newUrl "/v1/models/"
      then replace newUrl "/v1/models/" "/v1/publishers/google/models/"
      else newUrl
    else newUrl in
  let newUrl :=
    if includes newUrl "/publishers/google/v1beta/models"
    then replace newUrl "/publishers/google/v1beta/models" "/publishers/google/models"
    else if includes newUrl "/publishers/google/v1/models"
    then replace newUrl "/publishers/google/v1/models" "/publishers/google/models"
    else newUrl in
  let newUrl :=
    if includes newUrl "/v1beta/v1beta"
    then replace newUrl "/v1beta/v1beta" "/v1beta"
    else newUrl in
  collapse_slashes false newUrl.

(** Some rule of [rewriteUrl] would change [s]: it holds the target origin
    or one of the path shapes the rules look for. *)
Definition rule_applies (s : string) : bool :=
  includes s targetOrigin
  || includes s "/v1/v1beta/"
  || includes s "/v1/v1/"
  || (includes s "aiplatform.googleapis.com"
      && negb (includes s "publishers/google")
      && includes s "/v1/models/")
  || includes s "/publishers/google/v1beta/models"
  || includes s "/publishers/google/v1/models"
  || includes s "/v1beta/v1beta".

(* ================================================================== *)
(** ** services/networkInterceptor.ts: [patchedFetch] *)
(* ================================================================== *)

(** [RequestInfo | URL], over the types of [URL] objects and of [Request]
    objects. *)
Inductive fetchInputOf (U R : Type) : Type :=
| InString (s : string)
| InURL (u : U)
| InRequest (r : R).

Arguments InString {U R} s.
Arguments InURL {U R} u.
Arguments InRequest {U R} r.

(** The observable effects of a call: a dispatch to the real transport with
    its two arguments, or an entry written to the log service. *)
Inductive eventOf (U R I : Type) : Type :=
| Dispatch (input : fetchInputOf U R) (init : option I)
| Log (level : logLevel) (message : string).

Arguments Dispatch {U R I} input init.
Arguments Log {U R I} level message.

Section Shim.

Context {P : WebPlatform}.

Definition fetchInput : Type := fetchInputOf URLobj Request.

Definition event : Type := eventOf URLobj Request RequestInit.

(** A computation: the effects so far, in order, and how it ended. *)
Definition M (A : Type) : Type := (list event * outcome A)%type.

Definition ret {A : Type} (a : A) : M A := ([], Returned a).

Definition throw {A : Type} (e : jsval) : M A := ([], Thrown e).

Definition bind {A B : Type} (m : M A) (k : A -> M B) : M B :=
  match m with
  | (tr, Returned a) => let '(tr', o) := k a in (tr ++ tr', o)%list
  | (tr, Thrown e) => (tr, Thrown e)
  end.

(** [try { m } catch (e) { h e }] *)
Definition try_catch {A : Type} (m : M A) (h : jsval -> M A) : M A :=
  match m with
  | (tr, Returned a) => (tr, Returned a)
  | (tr, Thrown e) => let '(tr', o) := h e in (tr ++ tr', o)%list
  end.

Definition lift {A : Type} (o : outcome A) : M A := ([], o).

Definition log (level : logLevel) (message : string) : M unit :=
  ([Log level message], Returned tt).

Local Notation "x <- m ;; k" := (bind m (fun x => k))
  (at level 61, m at next level, right associativity).
Local Notation "m ;;; k" := (bind m (fun _ => k))
  (at level 61, right associativity).

(** The real transport: what a call of the browser's own [fetch] with
    these arguments settles to.  An [await]ed rejection is a thrown
    value. *)
Variable transport : fetchInput -> option RequestInit -> outcome Response.

(** [originalFetch(input, init)] once [mount] has stored the browser's
    [fetch] in [originalFetch]. *)
Definition originalFetch (input : fetchInput) (init : option RequestInit)
  : M Response :=
  ([Dispatch input init], transport input init).

(** The messages of the two error-level log entries. *)
Definition FETCH_FAILED : string :=
  "[NetworkInterceptor] Fetch request failed after URL rewrite.".

Definition REWRITE_FAILED : string :=
  "[NetworkInterceptor] Failed to rewrite URL. Falling back to original URL.".

(** The text of the error raised when the dispatch of the rewritten URL
    fails. *)
Definition errorDetails (originalError sanitizedProxyUrl sanitizedTargetUrl : string)
  : string :=
  join (String "010" EmptyString)
    [ "Network request failed. Original error: " ++ originalError;
      "";
      "Proxy Configuration:";
      "  Proxy URL: " ++ sanitizedProxyUrl;
      "  Target URL: " ++ sanitizedTargetUrl;
      "";
      "Troubleshooting:";
      "  1. Verify proxy server is running and accessible";
      "  2. Check proxy URL format is correct (include protocol: http:// or https://)";
      "  3. Ensure proxy endpoint path matches your configuration";
      "  4. Check network connectivity and firewall settings";
      "  5. Verify CORS headers if using browser-based proxy" ].

(** [fetchError instanceof Error ? fetchError.message : String(fetchError)] *)
Definition error_text (fetchError : jsval) : outcome string :=
  match fetchError with
  | VError _ _ message => Returned message
  | _ => String_of fetchError
  end.

(** The [catch (fetchError)] block of the inner [try].  The conversion
    [String(fetchError)] in it may throw; what it throws leaves the block. *)
Definition on_fetch_error (currentProxyUrl newUrl : string) (fetchError : jsval)
  : M Response :=
  log LError FETCH_FAILED ;;;
  sanitizedProxyUrl <-
    (if truthy currentProxyUrl then lift (sanitizeUrlForDisplay currentProxyUrl)
     else ret "[not configured]") ;;
  sanitizedTargetUrl <- lift (sanitizeUrlForDisplay newUrl) ;;
  originalError <- lift (error_text fetchError) ;;
  let enhancedError :=
    new_Error (errorDetails originalError sanitizedProxyUrl sanitizedTargetUrl) in
  let enhancedError := set_name enhancedError "NetworkError" in
  throw enhancedError.

(** The test of the outer [catch]:
    [e instanceof Error && e.name === 'NetworkError']. *)
Definition is_NetworkError (e : jsval) : bool :=
  match e with
  | VError _ name _ => String.eqb name "NetworkError"
  | _ => false
  end.

(** [urlStr] and [originalRequest] after the normalisation of [input]. *)
Definition normalize_input (input : fetchInput) : string * option Request :=
  match input with
  | InString s => (s, None)
  | InURL u => (URL_toString u, None)
  | InRequest r => (Request_url r, Some r)
  end.

(** [patchedFetch(input, init)], with the statements that compute
    [newUrl] (lines 134 to 175) as the parameter [compute_newUrl], so that
    the [catch] block around them can be stated for a computation that
    throws.  [None] from the outer [try] is the fall-through to the last
    line. *)
Definition patchedFetch_with
    (compute_newUrl : string -> string -> outcome string)
    (cfg : Config) (input : fetchInput) (init : option RequestInit)
  : M Response :=
  match currentProxyUrl cfg with
  | Some proxy =>
      if negb (isInterceptorEnabled cfg) || negb (truthy proxy)
      then originalFetch input init
      else
        let '(urlStr, originalRequest) := normalize_input input in
        if includes urlStr TARGET_HOST then
          r <- try_catch
                 (newUrl <- lift (compute_newUrl urlStr proxy) ;;
                  resp <- try_catch
                            (match originalRequest with
                             | Some req =>
                                 newReq <- lift (Request_new newUrl req) ;;
                                 originalFetch (InRequest newReq) init
                             | None => originalFetch (InString newUrl) init
                             end)
                            (on_fetch_error proxy newUrl) ;;
                  ret (Some resp))
                 (fun e =>
                    if is_NetworkError e then throw e
                    else
                      log LError REWRITE_FAILED ;;;
                      ret None) ;;
          match r with
          | Some resp => ret resp
          | None => originalFetch input init
          end
        else originalFetch input init
  | None => originalFetch input init
  end.

(** [patchedFetch] as the source has it: [newUrl] is computed by the
    string operations of [rewriteUrl], none of which throws. *)
Definition patchedFetch : Config -> fetchInput -> option RequestInit -> M Response :=
  patchedFetch_with (fun urlStr proxy => Returned (rewriteUrl urlStr proxy)).

End Shim.

(* ================================================================== *)
(** ** services/networkInterceptor.ts: [mount] *)
(* ================================================================== *)

Module Mount.














End Mount.

(* ================================================================== *)
(** ** An instance of the browser interface *)
(* ================================================================== *)

(** Hierarchical URLs, [scheme://userinfo@host/path?query#fragment], parsed
    and serialised after the URL Standard; anything else does not parse.
    Percent-encoding is applied by the query-string functions only. *)
Module Model.

Record url : Type := {
  scheme : string;
  username : string;
  password : string;
  host : string;
  path : string;
  query : option string;
  fragment : option string
}.

Definition is_alpha (c : ascii) : bool :=
  let n := nat_of_ascii c in
  (Nat.leb 65 n && Nat.leb n 90) || (Nat.leb 97 n && Nat.leb n 122).

Definition is_digit (c : ascii) : bool :=
  let n := nat_of_ascii c in Nat.leb 48 n && Nat.leb n 57.

Fixpoint forallb_string (f : ascii -> bool) (s : string) : bool :=
  match s with
  | EmptyString => true
  | String c s' => f c && forallb_string f s'
  end.

Definition scheme_char (c : ascii) : bool :=
  is_alpha c || is_digit c || is_char c "+" || is_char c "-" || is_char c ".".

Definition host_char (c : ascii) : bool :=
  is_alpha c || is_digit c || is_char c "-" || is_char c "." || is_char c "_"
  || is_char c ":".

Definition valid_scheme (s : string) : bool :=
  match s with
  | EmptyString => false
  | String c _ => is_alpha c && forallb_string scheme_char s
  end.

(** The last occurrence of [p] in [s]. *)
Fixpoint split_last (s p : string) : option (string * string) :=
  match s with
  | EmptyString => None
  | String c s' =>
      match split_last s' p with
      | Some (before, after) => Some (String c before, after)
      | None =>
          if String.prefix p s then Some (EmptyString, drop (String.length p) s)
          else None
      end
  end.

(** [s] cut at the first [p], the second part absent if [p] is. *)
Definition cut (s p : string) : string * option string :=
  match split_first s p with
  | Some (before, after) => (before, Some after)
  | None => (s, None)
  end.

Definition parse (s : string) : option url :=
  match split_first s ":" with
  | None => None
  | Some (sch, rest) =>
      if valid_scheme sch && String.prefix "//" rest then
        let '(main, frag) := cut (drop 2 rest) "#" in
        let '(hier, qry) := cut main "?" in
        let '(authority, pth) :=
          match split_first hier "/" with
          | Some (a, p) => (a, String "/" p)
          | None => (hier, "/")
          end in
        let '(userinfo, hostport) :=
          match split_last authority "@" with
          | Some (u, h) => (u, h)
          | None => (EmptyString, authority)
          end in
        let '(user, pass) :=
          match split_first userinfo ":" with
          | Some (u, p) => (u, p)
          | None => (userinfo, EmptyString)
          end in
        if truthy hostport && forallb_string host_char hostport then
          Some {| scheme := toLowerCase sch; username := user; password := pass;
                  host := toLowerCase hostport; path := pth;
                  query := qry; fragment := frag |}
        else None
      else None
  end.

Definition href (u : url) : string :=
  scheme u ++ "://"
  ++ (if truthy (username u) || truthy (password u)
      then username u
           ++ (if truthy (password u) then ":" ++ password u else "")
           ++ "@"
      else "")
  ++ host u ++ path u
  ++ match query u with Some q => "?" ++ q | None => "" end
  ++ match fragment u with Some f => "#" ++ f | None => "" end.

Definition protocol (u : url) : string := scheme u ++ ":".

Definition search (u : url) : string :=
  match query u with
  | Some q => if truthy q then "?" ++ q else ""
  | None => ""
  end.

Definition strip_leading (c : ascii) (s : string) : string :=
  match s with
  | String d s' => if is_char d c then s' else s
  | EmptyString => s
  end.

Definition cannot_have_credentials (u : url) : bool :=
  negb (truthy (host u)) || String.eqb (scheme u) "file".

Definition set_username (u : url) (v : string) : url :=
  if cannot_have_credentials u then u
  else {| scheme := scheme u; username := v; password := password u;
          host := host u; path := path u; query := query u;
          fragment := fragment u |}.

Definition set_password (u : url) (v : string) : url :=
  if cannot_have_credentials u then u
  else {| scheme := scheme u; username := username u; password := v;
          host := host u; path := path u; query := query u;
          fragment := fragment u |}.

Definition set_search (u : url) (v : string) : url :=
  {| scheme := scheme u; username := username u; password := password u;
     host := host u; path := path u;
     query := if truthy v then Some (strip_leading "?" v) else None;
     fragment := fragment u |}.

Definition set_hash (u : url) (v : string) : url :=
  {| scheme := scheme u; username := username u; password := password u;
     host := host u; path := path u; query := query u;
     fragment := if truthy v then Some (strip_leading "#" v) else None |}.

(** *** The query string: [application/x-www-form-urlencoded] *)

Fixpoint split_on (c : ascii) (s : string) : list string :=
  match s with
  | EmptyString => [EmptyString]
  | String d s' =>
      if is_char d c then EmptyString :: split_on c s'
      else match split_on c s' with
           | x :: rest => String d x :: rest
           | [] => [String d EmptyString]
           end
  end.

Fixpoint plus_to_space (s : string) : string :=
  match s with
  | EmptyString => EmptyString
  | String c s' => String (if is_char c "+" then " "%char else c) (plus_to_space s')
  end.

Definition hex_val (c : ascii) : option nat :=
  let n := nat_of_ascii c in
  if Nat.leb 48 n && Nat.leb n 57 then Some (n - 48)
  else if Nat.leb 65 n && Nat.leb n 70 then Some (n - 55)
  else if Nat.leb 97 n && Nat.leb n 102 then Some (n - 87)
  else None.

Fixpoint percent_decode (s : string) : string :=
  match s with
  | EmptyString => EmptyString
  | String c rest =>
      match rest with
      | String h (String l rest') =>
          if is_char c "%" then
            match hex_val h, hex_val l with
            | Some a, Some b => String (ascii_of_nat (16 * a + b)) (percent_decode rest')
            | _, _ => String c (percent_decode rest)
            end
          else String c (percent_decode rest)
      | _ => String c (percent_decode rest)
      end
  end.

Definition hex_digit (n : nat) : ascii :=
  if Nat.ltb n 10 then ascii_of_nat (48 + n) else ascii_of_nat (55 + n).

Definition urlencoded_safe (c : ascii) : bool :=
  is_alpha c || is_digit c || is_char c "*" || is_char c "-" || is_char c "."
  || is_char c "_".

Fixpoint urlencode (s : string) : string :=
  match s with
  | EmptyString => EmptyString
  | String c s' =>
      if is_char c " " then String "+" (urlencode s')
      else if urlencoded_safe c then String c (urlencode s')
      else
        let n := nat_of_ascii c in
        String "%" (String (hex_digit (n / 16)) (String (hex_digit (n mod 16)) (urlencode s')))
  end.

Definition parse_pair (piece : string) : string * string :=
  let '(name, value) := cut piece "=" in
  (percent_decode (plus_to_space name),
   percent_decode (plus_to_space match value with Some v => v | None => "" end)).

Definition parse_query (q : string) : list (string * string) :=
  map parse_pair (filter truthy (split_on "&" (strip_leading "?" q))).

Definition serialize_query (l : list (string * string)) : string :=
  join "&" (map (fun p => urlencode (fst p) ++ "=" ++ urlencode (snd p)) l).

(** *** Requests *)

Record request : Type := {
  request_url : string;
  request_method : string;
  request_body : string
}.

(** [new Request(url, r)]: the URL is parsed (there is no base URL here,
    so a string that does not parse is a [TypeError]); method and body are
    taken from [r]. *)
Definition new_request (u : string) (r : request) : outcome request :=
  match parse u with
  | Some parsed =>
      Returned {| request_url := href parsed;
                  request_method := request_method r;
                  request_body := request_body r |}
  | None => Thrown (new_TypeError "Failed to construct 'Request': Invalid URL")
  end.

#[export] Instance platform : WebPlatform := {|
  URLobj := url;
  URL_new := parse;
  URL_protocol := protocol;
  URL_username := username;
  URL_password := password;
  URL_host := host;
  URL_search := search;
  URL_set_username := set_username;
  URL_set_password := set_password;
  URL_set_search := set_search;
  URL_set_hash := set_hash;
  URL_toString := href;
  USP_new := parse_query;
  USP_toString := serialize_query;
  Request := request;
  Request_url := request_url;
  Request_new := new_request;
  RequestInit := list (string * string);
  Response := string
|}.

End Model.


(* ================================================================== *)
(** ** Notions used to state what the interceptor does *)
(* ================================================================== *)

(** Somewhere in [s] a character other than a colon is followed by two
    slashes: the regular expression [/([^:]\/)\/+/] has a match in [s]. *)
Fixpoint has_slash_run (s : string) : bool :=
  match s with
  | EmptyString => false
  | String c rest =>
      (negb (is_char c ":") && two_slashes rest) || has_slash_run rest
  end.

(** The test of the sanitizer's loop on a parameter name:
    [sensitiveParams.includes(paramName.toLowerCase())]. *)
Definition is_sensitive (paramName : string) : bool :=
  Array_includes sensitiveParams (toLowerCase paramName).

(** The value has a text for the error report:
    [fetchError instanceof Error ? fetchError.message : String(fetchError)]
    returns. *)
Definition has_string_form (v : jsval) : bool :=
  match error_text v with
  | Returned _ => true
  | Thrown _ => false
  end.

(** The guard of [patchedFetch] lets the call through to the rewriting:
    the negation of [!isInterceptorEnabled || !currentProxyUrl]. *)
Definition rewriting_active (cfg : Config) : bool :=
  isInterceptorEnabled cfg && truthy_opt (currentProxyUrl cfg).

(** The calls of the real transport in a trace, in order. *)
Fixpoint dispatches {U R I : Type} (tr : list (eventOf U R I))
  : list (fetchInputOf U R * option I) :=
  match tr with
  | [] => []
  | Dispatch input init :: rest => (input, init) :: dispatches rest
  | Log _ _ :: rest => dispatches rest
  end.

(* ================================================================== *)
(** ** The API error handler, a caller of [isNetworkError] *)
(* ================================================================== *)

(** [handleApiError] of the hook [useApiErrorHandler].  The types
    [SavedChatSession] and [ChatMessage] are declared elsewhere; the records
    below have the fields the handler reads or writes, and one field for
    all the others, which the object spreads copy. *)
Module ApiErrorHandler.

(** White space and line terminators among the characters of [ascii]:
    tab, line feed, vertical tab, form feed, carriage return, space and
    no-break space. *)
Definition is_whitespace (c : ascii) : bool :=
  let n := nat_of_ascii c in
  (Nat.leb 9 n && Nat.leb n 13) || Nat.eqb n 32 || Nat.eqb n 160.

Fixpoint trimStart (s : string) : string :=
  match s with
  | EmptyString => EmptyString
  | String c s' => if is_whitespace c then trimStart s' else s
  end.

Fixpoint trimEnd (s : string) : string :=
  match s with
  | EmptyString => EmptyString
  | String c s' =>
      match trimEnd s' with
      | EmptyString => if is_whitespace c then EmptyString else String c EmptyString
      | t => String c t
      end
  end.

(** [s.trim()] *)
Definition trim (s : string) : string := trimEnd (trimStart s).

Definition LF : string := String "010" EmptyString.

Section Handler.

(** [Date] objects, and the fields of a message and of a session the
    handler does not touch. *)
Variables Date MessageRest SessionRest : Type.

Record ChatMessage : Type := {
  msg_id : string;
  role : string;
  content : option string;
  isLoading : option bool;
  generationEndTime : option Date;
  msg_rest : MessageRest
}.

Record SavedChatSession : Type := {
  session_id : string;
  messages : list ChatMessage;
  session_rest : SessionRest
}.

(** [error instanceof Error &&
     (error.name === 'AbortError' || error.message === 'aborted')] *)
Definition isAborted (error : jsval) : bool :=
  match error with
  | VError _ name message =>
      String.eqb name "AbortError" || String.eqb message "aborted"
  | _ => false
  end.

(** The text for a network error; the bullet character is written in
    UTF-8. *)
Definition networkMessage (errorPrefix message : string) : string :=
  errorPrefix ++ ": Network request failed. Please check:" ++ LF
  ++ "• Your internet connection" ++ LF
  ++ "• Your API key is valid" ++ LF
  ++ "• API proxy settings (if enabled)" ++ LF
  ++ "• CORS/network restrictions" ++ LF
  ++ LF
  ++ "Technical details: " ++ message.

(** [errorMessage] when the [if] chain of the handler is through; for a
    value that is not an [Error] the chain calls [String(error)], which may
    throw. *)
Definition errorMessageOf (error : jsval) (errorPrefix : string)
  : outcome string :=
  match error with
  | VError _ name message =>
      if String.eqb name "SilentError" then
        Returned "API key is not configured in settings."
      else if ErrorUtils.isNetworkError error then
        Returned (networkMessage errorPrefix message)
      else Returned (errorPrefix ++ ": " ++ message)
  | _ => obind (String_of error) (fun text => Returned (errorPrefix ++ ": " ++ text))
  end.

(** The successive results of [new Date()] while the updater runs. *)
Variable clock : nat -> Date.

(** The object that replaces a message with the id [modelMessageId]. *)
Definition error_message_of (msg : ChatMessage) (errorMessage : string)
    (now : Date) : ChatMessage :=
  {| msg_id := msg_id msg;
     role := "error";
     content :=
       Some (trim (match content msg with
                   | Some c => if truthy c then c else ""
                   | None => ""
                   end)
             ++ LF ++ LF ++ "[" ++ errorMessage ++ "]");
     isLoading := Some false;
     generationEndTime := Some now;
     msg_rest := msg_rest msg |}.

(** [s.messages.map(msg => msg.id === modelMessageId ? {...} : msg)];
    [tick] counts the [Date] objects made so far. *)
Fixpoint update_messages (modelMessageId errorMessage : string)
    (msgs : list ChatMessage) (tick : nat) : list ChatMessage * nat :=
  match msgs with
  | [] => ([], tick)
  | msg :: rest =>
      let '(msg', tick') :=
        if String.eqb (msg_id msg) modelMessageId
        then (error_message_of msg errorMessage (clock tick), S tick)
        else (msg, tick) in
      let '(rest', tick'') :=
        update_messages modelMessageId errorMessage rest tick' in
      (msg' :: rest', tick'')
  end.

(** [prev.map(s => s.id === sessionId ? {...s, messages: ...} : s)] *)
Fixpoint update_sessions (sessionId modelMessageId errorMessage : string)
    (prev : list SavedChatSession) (tick : nat) : list SavedChatSession * nat :=
  match prev with
  | [] => ([], tick)
  | s :: rest =>
      let '(s', tick') :=
        if String.eqb (session_id s) sessionId
        then
          let '(msgs, t) :=
            update_messages modelMessageId errorMessage (messages s) tick in
          ({| session_id := session_id s;
              messages := msgs;
              session_rest := session_rest s |}, t)
        else (s, tick) in
      let '(rest', tick'') :=
        update_sessions sessionId modelMessageId errorMessage rest tick' in
      (s' :: rest', tick'')
  end.

(** The function handed to [updateAndPersistSessions]. *)
Definition updater (sessionId modelMessageId errorMessage : string)
    (prev : list SavedChatSession) : list SavedChatSession :=
  fst (update_sessions sessionId modelMessageId errorMessage prev 0).

(** [handleApiError(error, sessionId, modelMessageId, errorPrefix)]: the
    entry written to the log service, and how the call ends: with the
    function handed to [updateAndPersistSessions], if it is called, or with
    a thrown value.  [errorPrefix] is optional and defaults to ["Error"]. *)
Definition handleApiError (error : jsval) (sessionId modelMessageId : string)
    (errorPrefix : option string)
  : (logLevel * string)
    * outcome (option (list SavedChatSession -> list SavedChatSession)) :=
  let errorPrefix :=
    match errorPrefix with Some p => p | None => "Error" end in
  let entry :=
    (LError, "API Error (" ++ errorPrefix ++ ") for message " ++ modelMessageId
             ++ " in session " ++ sessionId) in
  if isAborted error then (entry, Returned None)
  else
    (entry,
     obind (errorMessageOf error errorPrefix) (fun errorMessage =>
       Returned (Some (updater sessionId modelMessageId errorMessage)))).

End Handler.

Arguments msg_id {Date MessageRest} c.
Arguments role {Date MessageRest} c.
Arguments content {Date MessageRest} c.
Arguments isLoading {Date MessageRest} c.
Arguments generationEndTime {Date MessageRest} c.
Arguments msg_rest {Date MessageRest} c.
Arguments session_id {Date MessageRest SessionRest} s.
Arguments messages {Date MessageRest SessionRest} s.
Arguments session_rest {Date MessageRest SessionRest} s.
Arguments error_message_of {Date MessageRest} msg errorMessage now.
Arguments update_messages {Date MessageRest} clock modelMessageId errorMessage msgs tick.
Arguments update_sessions {Date MessageRest SessionRest} clock sessionId
  modelMessageId errorMessage prev tick.
Arguments updater {Date MessageRest SessionRest} clock sessionId modelMessageId
  errorMessage prev.
Arguments handleApiError {Date MessageRest SessionRest} clock error sessionId
  modelMessageId errorPrefix.

End ApiErrorHandler.

(* ================================================================== *)
(** * Properties *)
(* ================================================================== *)

(** ** String primitives *)

Section StringFacts.

Lemma split_first_absent s p :
  includes s p = false -> split_first s p = None.
Proof.
  induction s as [|c s IH]; simpl; intros H.
  - apply orb_false_elim in H as [H _]. now rewrite H.
  - apply orb_false_elim in H as [H1 H2].
    rewrite H1, (IH H2). reflexivity.
Qed.

(** A pattern that does not occur is not replaced. *)
Lemma replace_absent s p r :
  includes s p = false -> replace s p r = s.
Proof.
  intros H. unfold replace. now rewrite (split_first_absent _ _ H).
Qed.

Lemma is_char_eq a c : is_char a c = true -> a = c.
Proof. apply Ascii.eqb_eq. Qed.

(** One step of the scan, with the three cases of [collapse_slashes]
    side by side. *)
Lemma collapse_slashes_step m c rest :
  collapse_slashes m (String c rest) =
    if m && is_char c "/" then collapse_slashes true rest
    else if negb (is_char c ":") && two_slashes rest
         then String c (String "/" (collapse_slashes true (drop 2 rest)))
         else String c (collapse_slashes false rest).
Proof.
  cbn [collapse_slashes].
  destruct (m && is_char c "/"); [reflexivity|].
  destruct rest as [|c1 [|c2 rest']]; cbn [two_slashes leading_slash drop].
  - now rewrite andb_false_r.
  - now rewrite !andb_false_r.
  - rewrite <- andb_assoc.
    destruct (negb (is_char c ":") && (is_char c1 "/" && is_char c2 "/")) eqn:E;
      [|reflexivity].
    apply andb_prop in E as [_ E]. apply andb_prop in E as [E _].
    now rewrite (is_char_eq _ _ E).
Qed.

(** While a run of slashes is being consumed no slash is emitted. *)
Lemma collapse_skipping_no_leading_slash s :
  leading_slash (collapse_slashes true s) = false.
Proof.
  induction s as [|c rest IH]; [reflexivity|].
  rewrite collapse_slashes_step. cbn [andb].
  destruct (is_char c "/") eqn:Ec; [exact IH|].
  destruct (negb (is_char c ":") && two_slashes rest); cbn; exact Ec.
Qed.

Lemma collapse_leading_slash s :
  leading_slash (collapse_slashes false s) = leading_slash s.
Proof.
  destruct s as [|c rest]; [reflexivity|].
  rewrite collapse_slashes_step. cbn [andb].
  now destruct (negb (is_char c ":") && two_slashes rest).
Qed.

(** The scan leaves the first two characters as they are. *)
Lemma collapse_two_slashes s :
  two_slashes (collapse_slashes false s) = two_slashes s.
Proof.
  destruct s as [|c rest]; [reflexivity|].
  rewrite collapse_slashes_step. cbn [andb].
  destruct (negb (is_char c ":") && two_slashes rest) eqn:E; cbn [two_slashes].
  - apply andb_prop in E as [_ E].
    destruct rest as [|c1 rest']; [discriminate|].
    cbn in E |- *. apply andb_prop in E as [E _]. now rewrite E.
  - now rewrite collapse_leading_slash.
Qed.

Lemma drop_length n s : String.length (drop n s) <= String.length s.
Proof.
  revert s. induction n as [|n IH]; intros [|c s]; cbn; auto.
Qed.

Lemma collapse_slashes_fixed_bounded n :
  forall s m, String.length s <= n ->
    collapse_slashes false (collapse_slashes m s) = collapse_slashes m s.
Proof.
  induction n as [|n IH]; intros [|c rest] m Hlen; try reflexivity.
  - cbn in Hlen. lia.
  - cbn [String.length] in Hlen.
    rewrite collapse_slashes_step.
    destruct (m && is_char c "/").
    + apply IH. lia.
    + destruct (negb (is_char c ":") && two_slashes rest) eqn:E.
      * set (T := collapse_slashes true (drop 2 rest)).
        assert (HT : leading_slash T = false)
          by apply collapse_skipping_no_leading_slash.
        rewrite collapse_slashes_step. cbn [andb two_slashes leading_slash].
        rewrite HT. cbn [is_char]. rewrite !andb_false_r.
        rewrite collapse_slashes_step. cbn [andb].
        assert (H2 : two_slashes T = false).
        { destruct T; [reflexivity|]. cbn in HT |- *. now rewrite HT. }
        rewrite H2, andb_false_r.
        unfold T. rewrite IH; [reflexivity|].
        pose proof (drop_length 2 rest). lia.
      * rewrite collapse_slashes_step. cbn [andb].
        rewrite collapse_two_slashes, E.
        rewrite IH; [reflexivity | lia].
Qed.

(** Collapsing the slashes of a string whose slashes were collapsed
    changes nothing. *)
Lemma collapse_slashes_fixed s :
  collapse_slashes false (collapse_slashes false s) = collapse_slashes false s.
Proof. apply (collapse_slashes_fixed_bounded (String.length s)), Nat.le_refl. Qed.

End StringFacts.

(** ** The URL rewriting *)

Section RewriteFacts.

Ltac split_orb H :=
  repeat match type of H with
         | (_ || _) = false => apply orb_false_elim in H as [H ?]
         end.

(** On a string no rule applies to, only the slashes are collapsed. *)
Lemma rewriteUrl_no_rule s proxy :
  rule_applies s = false -> rewriteUrl s proxy = collapse_slashes false s.
Proof.
  unfold rule_applies. intros H. split_orb H.
  unfold rewriteUrl.
  rewrite (replace_absent _ _ proxy H).
  repeat match goal with
         | E : ?c = false |- context [if ?c then _ else _] => rewrite E
         end.
  assert (E3 : (if includes s "aiplatform.googleapis.com"
                   && negb (includes s "publishers/google")
                then if includes s "/v1/models/"
                     then replace s "/v1/models/" "/v1/publishers/google/models/"
                     else s
                else s) = s).
  { destruct (includes s "aiplatform.googleapis.com"
              && negb (includes s "publishers/google")); [|reflexivity].
    cbn in *. now match goal with E : includes s "/v1/models/" = false |- _ => rewrite E end. }
  rewrite E3.
  repeat match goal with
         | E : ?c = false |- context [if ?c then _ else _] => rewrite E
         end.
  reflexivity.
Qed.

Lemma rewriteUrl_collapsed urlStr proxy :
  exists x, rewriteUrl urlStr proxy = collapse_slashes false x.
Proof. unfold rewriteUrl. eexists. reflexivity. Qed.

End RewriteFacts.

(** C6.  For the original URL
    [https://generativelanguage.googleapis.com/v1beta/models/foo:generateContent]
    and the proxy base [https://my-proxy.example/v1], the rewriting yields
    exactly [https://my-proxy.example/v1/models/foo:generateContent], and
    [v1beta] does not occur in it. *)
Theorem rewriteUrl_scenario :
  rewriteUrl
    "https://generativelanguage.googleapis.com/v1beta/models/foo:generateContent"
    "https://my-proxy.example/v1"
  = "https://my-proxy.example/v1/models/foo:generateContent"
  /\ includes "https://my-proxy.example/v1/models/foo:generateContent" "v1beta" = false.
Proof. split; vm_compute; reflexivity. Qed.

(** C5, as stated, fails: with a doubled slash behind the target origin the
    first application yields a [/v1/v1beta/] path only after its last step,
    and the second application removes that [v1beta] segment. *)
Lemma rewriteUrl_not_idempotent :
  let u := "https://generativelanguage.googleapis.com//v1beta/models/foo" in
  let base := "https://my-proxy.example/v1" in
  rewriteUrl u base = "https://my-proxy.example/v1/v1beta/models/foo"
  /\ rewriteUrl (rewriteUrl u base) base = "https://my-proxy.example/v1/models/foo"
  /\ rewriteUrl (rewriteUrl u base) base <> rewriteUrl u base.
Proof.
  cbv zeta. repeat split; try (vm_compute; reflexivity).
  vm_compute. discriminate.
Qed.

(** C5, amended.  For every original URL and proxy base, if no rule of the
    chain applies to the output of the first application (it holds neither
    the target origin nor one of the path shapes the rules look for), then
    applying the chain to that output yields the same string. *)
Theorem rewriteUrl_settled (urlStr proxy : string) :
  rule_applies (rewriteUrl urlStr proxy) = false ->
  rewriteUrl (rewriteUrl urlStr proxy) proxy = rewriteUrl urlStr proxy.
Proof.
  intros H. rewrite (rewriteUrl_no_rule _ proxy H).
  destruct (rewriteUrl_collapsed urlStr proxy) as [x ->].
  apply collapse_slashes_fixed.
Qed.

Lemma rewriteUrl_settled_witness :
  rewriteUrl
    (rewriteUrl
       "https://generativelanguage.googleapis.com/v1beta/models/foo:generateContent"
       "https://my-proxy.example/v1")
    "https://my-proxy.example/v1"
  = rewriteUrl
      "https://generativelanguage.googleapis.com/v1beta/models/foo:generateContent"
      "https://my-proxy.example/v1".
Proof.
  apply (rewriteUrl_settled
           "https://generativelanguage.googleapis.com/v1beta/models/foo:generateContent"
           "https://my-proxy.example/v1").
  vm_compute. reflexivity.
Defined.

(** ** The error utilities *)

(** C10.  For every context message and every original error (or none),
    [createNetworkError] returns an [Error] whose name is exactly
    [NetworkError], and [isNetworkError] is true of it; and
    [isNetworkError] is false of every value that is not an [Error]
    instance. *)
Theorem createNetworkError_roundtrip :
  forall (contextMessage : string) (originalError : option jsval),
    instanceof_Error (ErrorUtils.createNetworkError contextMessage originalError) = true
    /\ error_name (ErrorUtils.createNetworkError contextMessage originalError)
       = Some "NetworkError"
    /\ ErrorUtils.isNetworkError
         (ErrorUtils.createNetworkError contextMessage originalError) = true
    /\ forall v : jsval, instanceof_Error v = false -> ErrorUtils.isNetworkError v = false.
Proof.
  intros contextMessage originalError. repeat split.
  intros [cls name message | text | ]; cbn; [discriminate | reflexivity..].
Qed.

Lemma createNetworkError_roundtrip_witness :
  instanceof_Error (VOther "Load failed") = false
  /\ ErrorUtils.isNetworkError (VOther "Load failed") = false.
Proof.
  split; [reflexivity|].
  apply (createNetworkError_roundtrip "File upload failed." None).
  reflexivity.
Defined.

(** ** The sanitizer *)

Lemma sanitizeUrlForDisplay_returns {P : WebPlatform} (url : string) :
  exists s, sanitizeUrlForDisplay url = Returned s.
Proof.
  unfold sanitizeUrlForDisplay, sanitize_body, new_URL.
  destruct (URL_new url) as [urlObj|]; cbn [obind ocatch].
  - destruct (redact_from 0 _ false) as [params has].
    eexists. reflexivity.
  - eexists. reflexivity.
Qed.

(** C8.  [sanitizeUrlForDisplay] returns a string on every input, it never
    throws; and on every input that does not parse as a URL the string is
    the fixed placeholder. *)
Theorem sanitizeUrlForDisplay_total {P : WebPlatform} :
  forall url : string,
    (exists s, sanitizeUrlForDisplay url = Returned s)
    /\ (URL_new url = None -> sanitizeUrlForDisplay url = Returned MALFORMED_URL).
Proof.
  intros url. split.
  - apply sanitizeUrlForDisplay_returns.
  - unfold sanitizeUrlForDisplay, sanitize_body, new_URL.
    intros ->. reflexivity.
Qed.

Lemma sanitizeUrlForDisplay_total_witness :
  @URL_new Model.platform "not a url" = None
  /\ @sanitizeUrlForDisplay Model.platform "not a url"
     = Returned "[malformed URL - unable to sanitize safely]".
Proof.
  split; [reflexivity|].
  apply (@sanitizeUrlForDisplay_total Model.platform "not a url").
  reflexivity.
Defined.

(** C3: the loop of the sanitizer deletes from the list it iterates over.
    After the deletion of [key] the pair [token=BBB] sits at the index the
    iterator has already passed, so it is never examined: the value of the
    denied parameter [token] is in the string returned. *)
Theorem sanitizeUrlForDisplay_keeps_second_param :
  redact_from 0 [("key", "AAA"); ("token", "BBB")] false = ([("token", "BBB")], true)
  /\ @sanitizeUrlForDisplay Model.platform "https://api.example/v1/x?key=AAA&token=BBB"
     = Returned "https://api.example/v1/x?token=BBB#sensitive_params_removed"
  /\ Array_includes sensitiveParams (toLowerCase "token") = true
  /\ includes "https://api.example/v1/x?token=BBB#sensitive_params_removed" "BBB" = true.
Proof. repeat split; vm_compute; reflexivity. Qed.

(** ** The configuration store *)

(** C1, as stated, fails: [configure(true, null)] leaves the interceptor
    enabled with no proxy URL. *)
Lemma configure_enabled_without_proxy :
  let cfg := snd (@configure Model.platform true None) in
  isInterceptorEnabled cfg = true
  /\ currentProxyUrl cfg = None
  /\ cfg <> {| isInterceptorEnabled := false; currentProxyUrl := None |}.
Proof. cbv zeta. repeat split. cbn. discriminate. Qed.

(** C1, amended.  When [configure(enabled, proxyUrl)] has returned:
    - if the stored flag is true and the stored proxy URL is a non-empty
      string, that URL parses and its protocol starts with [http];
    - if [enabled] is true and the proxy URL, one trailing slash removed,
      is non-empty and does not parse or has a protocol that does not start
      with [http], the state is exactly [{enabled:false, proxyUrl:null}];
    - if [enabled] is true and [proxyUrl] is null or empty, nothing is
      validated and the state is [{enabled:true, proxyUrl:null}]. *)
Theorem configure_state {P : WebPlatform} :
  forall (enabled : bool) (proxyUrl : option string),
    let cfg := snd (configure enabled proxyUrl) in
    (forall p, isInterceptorEnabled cfg = true ->
               currentProxyUrl cfg = Some p -> truthy p = true ->
               valid_proxy p = true)
    /\ (forall p, enabled = true ->
                  normalizeProxyUrl proxyUrl = Some p -> truthy p = true ->
                  valid_proxy p = false ->
                  cfg = {| isInterceptorEnabled := false; currentProxyUrl := None |})
    /\ (enabled = true -> truthy_opt proxyUrl = false ->
        cfg = {| isInterceptorEnabled := true; currentProxyUrl := None |}).
Proof.
  intros enabled proxyUrl cfg. subst cfg.
  assert (Hnull : truthy_opt proxyUrl = false -> normalizeProxyUrl proxyUrl = None).
  { destruct proxyUrl as [q|]; cbn; [intros ->|]; reflexivity. }
  unfold configure, valid_proxy.
  destruct (normalizeProxyUrl proxyUrl) as [proxy|].
  - destruct enabled, (truthy proxy) eqn:Ht; cbn [andb].
    + (* enabled, with a URL to validate *)
      destruct (URL_new proxy) as [url|] eqn:Hu;
        [destruct (startsWith (URL_protocol url) "http") eqn:Hs|];
        cbn [negb snd isInterceptorEnabled currentProxyUrl];
        (split; [|split]);
        try (intros H; discriminate H);
        try (intros p H; discriminate H);
        try (intros p _ _ _ _; reflexivity);
        try (intros _ H; specialize (Hnull H); discriminate Hnull).
      * intros p _ [= <-] _. now rewrite Hu.
      * intros p _ [= <-] _. rewrite Hu, Hs. discriminate.
    + (* enabled, the URL is empty once the slash is removed *)
      cbn [snd isInterceptorEnabled currentProxyUrl]. split; [|split].
      * intros p _ [= <-]. congruence.
      * intros p _ [= <-]. congruence.
      * intros _ H. specialize (Hnull H). discriminate Hnull.
    + cbn [snd isInterceptorEnabled]. repeat split; intros; discriminate.
    + cbn [snd isInterceptorEnabled]. repeat split; intros; discriminate.
  - cbn [snd isInterceptorEnabled currentProxyUrl]. split; [|split].
    + intros p _ H. discriminate H.
    + intros p _ H. discriminate H.
    + now intros ->.
Qed.

Lemma configure_state_witness :
  (let cfg := snd (@configure Model.platform true (Some "https://my-proxy.example/v1/")) in
   isInterceptorEnabled cfg = true
   /\ currentProxyUrl cfg = Some "https://my-proxy.example/v1"
   /\ @valid_proxy Model.platform "https://my-proxy.example/v1" = true)
  /\ (let cfg := snd (@configure Model.platform true (Some "ftp://host")) in
      normalizeProxyUrl (Some "ftp://host") = Some "ftp://host"
      /\ @valid_proxy Model.platform "ftp://host" = false
      /\ cfg = {| isInterceptorEnabled := false; currentProxyUrl := None |})
  /\ (let cfg := snd (@configure Model.platform true (Some "")) in
      truthy_opt (Some "") = false
      /\ cfg = {| isInterceptorEnabled := true; currentProxyUrl := None |}).
Proof.
  cbv zeta.
  split; [|split].
  - split; [reflexivity|]. split; [reflexivity|].
    apply (proj1 (@configure_state Model.platform true
                    (Some "https://my-proxy.example/v1/"))
             "https://my-proxy.example/v1"); reflexivity.
  - split; [reflexivity|]. split; [reflexivity|].
    apply (proj1 (proj2 (@configure_state Model.platform true (Some "ftp://host")))
             "ftp://host"); reflexivity.
  - split; [reflexivity|].
    apply (proj2 (proj2 (@configure_state Model.platform true (Some "")))); reflexivity.
Defined.

(** ** The interception shim *)

Section IncludesFacts.

Lemma includes_prefix s p : String.prefix p s = true -> includes s p = true.
Proof. destruct s; cbn [includes]; intros ->; reflexivity. Qed.

Lemma prefix_self p : String.prefix p p = true.
Proof.
  induction p as [|c p IH]; cbn; [reflexivity|].
  destruct (ascii_dec c c) as [_|N]; [exact IH | now elim N].
Qed.

Lemma includes_self p : includes p p = true.
Proof. apply includes_prefix, prefix_self. Qed.

Lemma includes_app_r a s p : includes s p = true -> includes (a ++ s) p = true.
Proof.
  intros H. induction a as [|c a IH]; cbn; [exact H|].
  rewrite IH. apply orb_true_r.
Qed.

Lemma prefix_app_l p : forall s b,
  String.prefix p s = true -> String.prefix p (s ++ b) = true.
Proof.
  induction p as [|d p IH]; intros [|c s] b H; cbn in *;
    try discriminate; try reflexivity.
  - now destruct b.
  - destruct (ascii_dec d c); [now apply IH | discriminate].
Qed.

Lemma includes_app_l s b p : includes s p = true -> includes (s ++ b) p = true.
Proof.
  induction s as [|c s IH]; cbn [includes]; intros H;
    apply orb_prop in H as [H|H].
  - apply includes_prefix. now apply prefix_app_l.
  - discriminate.
  - apply includes_prefix. now apply prefix_app_l.
  - change (String c s ++ b) with (String c (s ++ b)). cbn [includes].
    rewrite (IH H). apply orb_true_r.
Qed.

End IncludesFacts.

Section ShimFacts.

Context {P : WebPlatform}.
Variable transport : fetchInput -> option RequestInit -> outcome Response.

(** The handler of a failed dispatch writes one log entry; then, if the
    failure has a text, it throws an [Error] named [NetworkError] whose
    text is built from that text and the two sanitized URLs; if
    [String(fetchError)] throws, that [TypeError] leaves the handler. *)
Lemma on_fetch_error_outcome proxy newUrl fetchError :
  truthy proxy = true ->
  exists sanitizedProxyUrl sanitizedTargetUrl,
    sanitizeUrlForDisplay proxy = Returned sanitizedProxyUrl
    /\ sanitizeUrlForDisplay newUrl = Returned sanitizedTargetUrl
    /\ on_fetch_error proxy newUrl fetchError
       = ([Log LError FETCH_FAILED],
          match error_text fetchError with
          | Returned text =>
              Thrown (VError ClsError "NetworkError"
                        (errorDetails text sanitizedProxyUrl sanitizedTargetUrl))
          | Thrown e => Thrown e
          end).
Proof.
  intros Ht.
  destruct (sanitizeUrlForDisplay_returns proxy) as [sp Hsp].
  destruct (sanitizeUrlForDisplay_returns newUrl) as [st Hst].
  exists sp, st. repeat split; try assumption.
  unfold on_fetch_error. rewrite Ht, Hsp, Hst.
  destruct (error_text fetchError); reflexivity.
Qed.

(** What [String(fetchError)] throws is not taken for a [NetworkError] by
    the outer [catch]. *)
Lemma error_text_throws_TypeError fetchError e :
  error_text fetchError = Thrown e -> is_NetworkError e = false.
Proof. destruct fetchError; cbn; intros [= <-]; reflexivity. Qed.

(** The text of the raised error holds the text of the failure and both
    sanitized URLs. *)
Lemma errorDetails_includes originalError sanitizedProxyUrl sanitizedTargetUrl :
  let message := errorDetails originalError sanitizedProxyUrl sanitizedTargetUrl in
  includes message originalError = true
  /\ includes message sanitizedProxyUrl = true
  /\ includes message sanitizedTargetUrl = true.
Proof.
  cbv zeta. unfold errorDetails. cbn [join].
  repeat split.
  - apply includes_app_l, includes_app_r, includes_self.
  - do 6 apply includes_app_r.
    apply includes_app_l, includes_app_r, includes_self.
  - do 8 apply includes_app_r.
    apply includes_app_l, includes_app_r, includes_self.
Qed.

(** When the dispatch of the rewritten URL fails with a value that has a
    text, the shim throws the [NetworkError] built by the handler: the
    outer [catch] passes it on, and the original URL is not dispatched. *)
Lemma patchedFetch_transport_failure cfg s init proxy fetchError text :
  isInterceptorEnabled cfg = true ->
  currentProxyUrl cfg = Some proxy ->
  truthy proxy = true ->
  includes s TARGET_HOST = true ->
  transport (InString (rewriteUrl s proxy)) init = Thrown fetchError ->
  error_text fetchError = Returned text ->
  exists sanitizedProxyUrl sanitizedTargetUrl,
    sanitizeUrlForDisplay proxy = Returned sanitizedProxyUrl
    /\ sanitizeUrlForDisplay (rewriteUrl s proxy) = Returned sanitizedTargetUrl
    /\ patchedFetch transport cfg (InString s) init
       = ([Dispatch (InString (rewriteUrl s proxy)) init; Log LError FETCH_FAILED],
          Thrown (VError ClsError "NetworkError"
                    (errorDetails text sanitizedProxyUrl sanitizedTargetUrl))).
Proof.
  intros He Hp Ht Hi Hf Hx.
  destruct (on_fetch_error_outcome proxy (rewriteUrl s proxy) fetchError Ht)
    as (sp & st & Hsp & Hst & Hh).
  exists sp, st. repeat split; try assumption.
  unfold patchedFetch, patchedFetch_with.
  rewrite Hp, He, Ht. cbn [negb orb normalize_input]. rewrite Hi.
  unfold originalFetch. cbn [lift bind try_catch app]. rewrite Hf.
  cbn [try_catch]. rewrite Hh, Hx. reflexivity.
Qed.

End ShimFacts.

(** C2: the shim does not look at the host of the request.  It tests
    whether the URL string contains the name of the target host
    ([urlStr.includes(TARGET_HOST)]), so requests to other hosts are
    rewritten too.  The first request below goes to the host
    [generativelanguage.googleapis.com.evil.example], and what reaches the
    transport is a URL on the proxy; the second goes to [example.org] and
    only mentions the name in its query, and its path is changed. *)
Theorem patchedFetch_rewrites_other_host :
  let transport := fun (_ : @fetchInput Model.platform) (_ : option (@RequestInit Model.platform)) =>
                     Returned "ok" : outcome (@Response Model.platform) in
  let cfg := {| isInterceptorEnabled := true;
                currentProxyUrl := Some "https://my-proxy.example/v1" |} in
  let url := "https://generativelanguage.googleapis.com.evil.example/x" in
  let other := "https://example.org//a?ref=generativelanguage.googleapis.com" in
  option_map (@URL_host Model.platform) (@URL_new Model.platform url)
    = Some "generativelanguage.googleapis.com.evil.example"
  /\ "generativelanguage.googleapis.com.evil.example" <> TARGET_HOST
  /\ fst (patchedFetch transport cfg (InString url) None)
     = [Dispatch (InString "https://my-proxy.example/v1.evil.example/x") None]
  /\ patchedFetch transport cfg (InString url) None
     <> originalFetch transport (InString url) None
  /\ option_map (@URL_host Model.platform) (@URL_new Model.platform other)
     = Some "example.org"
  /\ fst (patchedFetch transport cfg (InString other) None)
     = [Dispatch
          (InString "https://example.org/a?ref=generativelanguage.googleapis.com")
          None].
Proof.
  cbv zeta. split; [vm_compute; reflexivity|]. split; [discriminate|].
  split; [vm_compute; reflexivity|].
  split; [vm_compute; discriminate|].
  split; vm_compute; reflexivity.
Qed.

(** A request whose URL string does not contain the name of the target
    host is handed to the real transport as it came. *)
Lemma patchedFetch_forwards_without_target_text {P : WebPlatform}
    (transport : fetchInput -> option RequestInit -> outcome Response)
    (cfg : Config) (input : fetchInput) (init : option RequestInit) :
  includes (fst (normalize_input input)) TARGET_HOST = false ->
  patchedFetch transport cfg input init = originalFetch transport input init.
Proof.
  intros Hi. unfold patchedFetch, patchedFetch_with.
  destruct (currentProxyUrl cfg) as [proxy|]; [|reflexivity].
  destruct (negb (isInterceptorEnabled cfg) || negb (truthy proxy));
    [reflexivity|].
  destruct (normalize_input input) as [urlStr originalRequest].
  cbn [fst] in Hi. now rewrite Hi.
Qed.

(** C7.  For every call in which computing the rewritten URL throws a value
    that the outer [catch] does not recognise as a [NetworkError] (it is not
    an [Error] instance named [NetworkError]), the shim writes one log
    entry, dispatches the original input with the caller's options to the
    real transport, and ends as that dispatch ends: the thrown value is not
    raised to the caller. *)
Theorem rewrite_failure_falls_back {P : WebPlatform}
    (compute_newUrl : string -> string -> outcome string)
    (transport : fetchInput -> option RequestInit -> outcome Response)
    (cfg : Config) (input : fetchInput) (init : option RequestInit)
    (proxy : string) (e : jsval) :
  isInterceptorEnabled cfg = true ->
  currentProxyUrl cfg = Some proxy ->
  truthy proxy = true ->
  includes (fst (normalize_input input)) TARGET_HOST = true ->
  compute_newUrl (fst (normalize_input input)) proxy = Thrown e ->
  is_NetworkError e = false ->
  patchedFetch_with transport compute_newUrl cfg input init
  = ([Log LError REWRITE_FAILED; Dispatch input init], transport input init).
Proof.
  intros He Hp Ht Hi Hc Hn.
  unfold patchedFetch_with. rewrite Hp, He, Ht. cbn [negb orb].
  destruct (normalize_input input) as [urlStr originalRequest].
  cbn [fst] in Hi, Hc. rewrite Hi, Hc.
  cbn [lift bind try_catch]. rewrite Hn.
  reflexivity.
Qed.

Lemma rewrite_failure_falls_back_witness :
  let compute_newUrl := fun _ _ : string =>
    Thrown (VError ClsError "RangeError" "Invalid string length") : outcome string in
  let transport := fun (_ : @fetchInput Model.platform)
                       (_ : option (@RequestInit Model.platform)) =>
                     Returned "ok" : outcome (@Response Model.platform) in
  let cfg := {| isInterceptorEnabled := true;
                currentProxyUrl := Some "https://my-proxy.example/v1" |} in
  let input := InString "https://generativelanguage.googleapis.com/v1beta/models" in
  patchedFetch_with transport compute_newUrl cfg input None
  = ([Log LError REWRITE_FAILED; Dispatch input None], Returned "ok").
Proof.
  cbv zeta.
  apply (@rewrite_failure_falls_back Model.platform
           (fun _ _ => Thrown (VError ClsError "RangeError" "Invalid string length"))
           (fun _ _ => Returned "ok")
           {| isInterceptorEnabled := true;
              currentProxyUrl := Some "https://my-proxy.example/v1" |}
           (InString "https://generativelanguage.googleapis.com/v1beta/models")
           None "https://my-proxy.example/v1"
           (VError ClsError "RangeError" "Invalid string length"));
    vm_compute; reflexivity.
Defined.

(** C4: the text of the raised error holds what the sanitizer returns, and
    the sanitizer leaves the second of two denied parameters in place.  With
    the proxy [https://my-proxy.example/v1] configured, a request whose
    query is [key=AAA&access_token=BBB] and whose dispatch fails with
    "connection refused" raises a [NetworkError] whose text holds
    [access_token=BBB]. *)
Theorem network_error_text_keeps_param :
  let transport := fun (_ : @fetchInput Model.platform)
                       (_ : option (@RequestInit Model.platform)) =>
                     Thrown (new_TypeError "connection refused")
                     : outcome (@Response Model.platform) in
  let cfg := snd (@configure Model.platform true (Some "https://my-proxy.example/v1")) in
  let input :=
    InString "https://generativelanguage.googleapis.com/v1beta/models/foo:generateContent?key=AAA&access_token=BBB" in
  exists message,
    snd (patchedFetch transport cfg input None)
    = Thrown (VError ClsError "NetworkError" message)
    /\ includes message "connection refused" = true
    /\ includes message
         "  Target URL: https://my-proxy.example/v1/models/foo:generateContent?access_token=BBB#sensitive_params_removed"
       = true
    /\ includes message "BBB" = true.
Proof.
  cbv zeta. eexists. split; [vm_compute; reflexivity|].
  repeat split; vm_compute; reflexivity.
Qed.

(** ** Mounting *)

Section MountFacts.

Import Mount.






End MountFacts.




(* ================================================================== *)
(** * Further properties of the code *)
(* ================================================================== *)

(** ** Slashes and the rewriting *)

Lemma collapse_slashes_no_run_bounded n :
  forall s m, String.length s <= n ->
    has_slash_run (collapse_slashes m s) = false.
Proof.
  induction n as [|n IH]; intros [|c rest] m Hlen; try reflexivity.
  - cbn in Hlen. lia.
  - cbn [String.length] in Hlen.
    rewrite collapse_slashes_step.
    destruct (m && is_char c "/").
    + apply IH. lia.
    + destruct (negb (is_char c ":") && two_slashes rest) eqn:E.
      * set (T := collapse_slashes true (drop 2 rest)).
        assert (HT : leading_slash T = false)
          by apply collapse_skipping_no_leading_slash.
        assert (H2 : two_slashes T = false).
        { destruct T; [reflexivity|]. cbn in HT |- *. now rewrite HT. }
        cbn [has_slash_run two_slashes]. rewrite HT, H2, !andb_false_r.
        cbn [orb]. unfold T. apply IH.
        pose proof (drop_length 2 rest). lia.
      * cbn [has_slash_run]. rewrite collapse_two_slashes, E.
        cbn [orb]. apply IH. lia.
Qed.

Lemma collapse_slashes_no_run s :
  has_slash_run (collapse_slashes false s) = false.
Proof. apply (collapse_slashes_no_run_bounded (String.length s)), Nat.le_refl. Qed.

Lemma collapse_slashes_clean s :
  has_slash_run s = false -> collapse_slashes false s = s.
Proof.
  induction s as [|c rest IH]; [reflexivity|].
  cbn [has_slash_run]. intros H. apply orb_false_elim in H as [H1 H2].
  rewrite collapse_slashes_step. cbn [andb]. rewrite H1, (IH H2). reflexivity.
Qed.

(** X1.  The slash-collapsing step leaves no match of its own regular
    expression behind (no character other than a colon is followed by two
    slashes), and a string without such a match is returned as it is. *)
Theorem collapse_slashes_normal_form :
  forall s : string,
    has_slash_run (collapse_slashes false s) = false
    /\ (has_slash_run s = false -> collapse_slashes false s = s).
Proof.
  intros s. split; [apply collapse_slashes_no_run | apply collapse_slashes_clean].
Qed.

Lemma collapse_slashes_normal_form_witness :
  has_slash_run "https://proxy.example/v1/models" = false
  /\ collapse_slashes false "https://proxy.example/v1/models"
     = "https://proxy.example/v1/models".
Proof.
  split; [reflexivity|].
  exact (proj2 (collapse_slashes_normal_form "https://proxy.example/v1/models")
           eq_refl).
Defined.

(** X2.  Whatever the request URL and the proxy URL, in the rewritten URL
    two slashes in a row occur only at the very start or right after a
    colon. *)
Theorem rewriteUrl_no_slash_run :
  forall urlStr proxy : string, has_slash_run (rewriteUrl urlStr proxy) = false.
Proof.
  intros urlStr proxy.
  destruct (rewriteUrl_collapsed urlStr proxy) as [x ->].
  apply collapse_slashes_no_run.
Qed.

(** X3.  A URL that no rule applies to and that has no run of slashes is
    rewritten to itself, whatever the proxy URL. *)
Theorem rewriteUrl_leaves_clean_url (s proxy : string) :
  rule_applies s = false ->
  has_slash_run s = false ->
  rewriteUrl s proxy = s.
Proof.
  intros Hr Hs. rewrite (rewriteUrl_no_rule s proxy Hr).
  now apply collapse_slashes_clean.
Qed.

Lemma rewriteUrl_leaves_clean_url_witness :
  rewriteUrl "https://my-proxy.example/v1/models/foo" "https://other.example"
  = "https://my-proxy.example/v1/models/foo".
Proof.
  apply (rewriteUrl_leaves_clean_url "https://my-proxy.example/v1/models/foo"
           "https://other.example"); vm_compute; reflexivity.
Defined.

Lemma drop_app p rest : drop (String.length p) (p ++ rest) = rest.
Proof. induction p as [|c p IH]; cbn; [now destruct rest | exact IH]. Qed.

Lemma prefix_append p rest : String.prefix p (p ++ rest) = true.
Proof. apply prefix_app_l, prefix_self. Qed.

Lemma split_first_at_start p rest :
  split_first (p ++ rest) p = Some (EmptyString, rest).
Proof.
  destruct (p ++ rest) eqn:E; cbn [split_first]; rewrite <- E;
    rewrite prefix_append, drop_app; reflexivity.
Qed.

Lemma includes_cons_false c t p :
  includes (String c t) p = false ->
  String.prefix p (String c t) = false /\ includes t p = false.
Proof. cbn [includes]. intros H. now apply orb_false_elim in H. Qed.

Lemma no_dollar_head c t :
  includes (String c t) "$" = false -> is_char c "$" = false.
Proof.
  intros H. apply includes_cons_false in H as [H _]. cbn in H.
  unfold is_char. destruct (Ascii.eqb c "$") eqn:E; [|reflexivity].
  apply Ascii.eqb_eq in E. subst c. cbn in H. now destruct t.
Qed.

(** A replacement text without a dollar sign is inserted as it is. *)
Lemma get_substitution_plain matched before after template :
  includes template "$" = false ->
  get_substitution matched before after template = template.
Proof.
  induction template as [|c rest IH]; [reflexivity|].
  intros H. pose proof (no_dollar_head _ _ H) as Hc.
  apply includes_cons_false in H as [_ H].
  cbn [get_substitution]. rewrite Hc.
  destruct rest as [|d rest']; [reflexivity|].
  now rewrite (IH H).
Qed.

(** X4.  For a request URL that begins with the target origin and a proxy
    URL without a dollar sign, the first step of the rewriting puts the
    proxy URL in the place of the origin and keeps the rest of the URL. *)
Theorem origin_replaced_by_proxy (path proxy : string) :
  includes proxy "$" = false ->
  replace (targetOrigin ++ path) targetOrigin proxy = proxy ++ path.
Proof.
  intros H. unfold replace. rewrite split_first_at_start.
  now rewrite (get_substitution_plain _ _ _ _ H).
Qed.

Lemma origin_replaced_by_proxy_witness :
  replace (targetOrigin ++ "/v1beta/models") targetOrigin "https://my-proxy.example"
  = "https://my-proxy.example" ++ "/v1beta/models".
Proof.
  apply (origin_replaced_by_proxy "/v1beta/models" "https://my-proxy.example").
  vm_compute. reflexivity.
Defined.

Lemma append_empty_r s : s ++ "" = s.
Proof. induction s as [|c s IH]; cbn; [reflexivity | now rewrite IH]. Qed.

Lemma append_assoc_string a b c : (a ++ b) ++ c = a ++ b ++ c.
Proof. induction a as [|x a IH]; cbn; [reflexivity | now rewrite IH]. Qed.

Lemma get_substitution_match_at_end matched before after base :
  includes base "$" = false ->
  get_substitution matched before after (base ++ "$&") = base ++ matched.
Proof.
  induction base as [|c rest IH]; intros H.
  - cbn. now rewrite append_empty_r.
  - pose proof (no_dollar_head _ _ H) as Hc.
    apply includes_cons_false in H as [_ H].
    change (String c rest ++ "$&") with (String c (rest ++ "$&")).
    cbn [get_substitution]. rewrite Hc.
    destruct (rest ++ "$&") eqn:E.
    + destruct rest; discriminate E.
    + rewrite (IH H). reflexivity.
Qed.

(** X5.  The proxy URL is a replacement pattern, not a plain text: where it
    ends in the two characters dollar and ampersand (and has no other
    dollar sign), these are replaced by the matched target origin, so the
    origin stays in the rewritten URL behind the rest of the proxy URL. *)
Theorem proxy_dollar_pattern_expands (path base : string) :
  includes base "$" = false ->
  replace (targetOrigin ++ path) targetOrigin (base ++ "$&")
  = base ++ targetOrigin ++ path.
Proof.
  intros H. unfold replace. rewrite split_first_at_start.
  rewrite (get_substitution_match_at_end _ _ _ _ H).
  cbn [append]. apply append_assoc_string.
Qed.

Lemma proxy_dollar_pattern_expands_witness :
  replace (targetOrigin ++ "/v1beta/models") targetOrigin
    ("https://cors.example/" ++ "$&")
  = "https://cors.example/" ++ targetOrigin ++ "/v1beta/models".
Proof.
  apply (proxy_dollar_pattern_expands "/v1beta/models" "https://cors.example/").
  vm_compute. reflexivity.
Defined.

(** ** The configuration store, continued *)

Lemma strip_trailing_slash_app p : strip_trailing_slash (p ++ "/") = p.
Proof.
  induction p as [|c p IH]; [reflexivity|].
  change (String c p ++ "/") with (String c (p ++ "/")).
  cbn [strip_trailing_slash]. rewrite IH.
  destruct (p ++ "/") eqn:E; [destruct p; discriminate E | reflexivity].
Qed.

Lemma truthy_app_slash p : truthy (p ++ "/") = true.
Proof. now destruct p. Qed.

(** X6.  A proxy URL given with a slash at its end is stored without that
    slash, and one slash only is removed: when [p] is non-empty and passes
    the validation, [configure(true, p + "/")] stores exactly [p]. *)
Theorem configure_drops_trailing_slash {P : WebPlatform} (p : string) :
  truthy p = true ->
  valid_proxy p = true ->
  snd (configure true (Some (p ++ "/")))
  = {| isInterceptorEnabled := true; currentProxyUrl := Some p |}.
Proof.
  intros Ht Hv. unfold configure, normalizeProxyUrl.
  rewrite truthy_app_slash, strip_trailing_slash_app, Ht. cbn [andb].
  unfold valid_proxy in Hv.
  destruct (URL_new p) as [url|]; [|discriminate].
  rewrite Hv. reflexivity.
Qed.

Lemma configure_drops_trailing_slash_witness :
  snd (@configure Model.platform true (Some ("https://my-proxy.example/v1/" ++ "/")))
  = {| isInterceptorEnabled := true;
       currentProxyUrl := Some "https://my-proxy.example/v1/" |}.
Proof.
  apply (@configure_drops_trailing_slash Model.platform
           "https://my-proxy.example/v1/"); vm_compute; reflexivity.
Defined.

(** X7.  Whenever the guard of [patchedFetch] lets a call through to the
    rewriting after [configure(enabled, proxyUrl)], [enabled] was true and
    the stored proxy URL is the given one without its trailing slash, and
    it parses with a protocol that starts with [http]. *)
Theorem rewriting_needs_valid_proxy {P : WebPlatform}
    (enabled : bool) (proxyUrl : option string) :
  rewriting_active (snd (configure enabled proxyUrl)) = true ->
  enabled = true
  /\ exists proxy,
       normalizeProxyUrl proxyUrl = Some proxy
       /\ currentProxyUrl (snd (configure enabled proxyUrl)) = Some proxy
       /\ valid_proxy proxy = true.
Proof.
  unfold rewriting_active, configure, valid_proxy.
  destruct (normalizeProxyUrl proxyUrl) as [proxy|]; cbn [snd].
  - destruct enabled; cbn [andb].
    + destruct (truthy proxy) eqn:Ht.
      * destruct (URL_new proxy) as [url|] eqn:Hu.
        -- destruct (startsWith (URL_protocol url) "http") eqn:Hs;
             cbn [negb snd isInterceptorEnabled currentProxyUrl andb truthy_opt].
           ++ intros _. split; [reflexivity|]. exists proxy.
              split; [reflexivity|]. split; [reflexivity | now rewrite Hu].
           ++ discriminate.
        -- cbn. discriminate.
      * cbn. rewrite Ht. discriminate.
    + cbn. discriminate.
  - cbn. rewrite andb_false_r. discriminate.
Qed.

Lemma rewriting_needs_valid_proxy_witness :
  exists proxy,
    normalizeProxyUrl (Some "https://my-proxy.example/v1/") = Some proxy
    /\ currentProxyUrl
         (snd (@configure Model.platform true (Some "https://my-proxy.example/v1/")))
       = Some proxy
    /\ @valid_proxy Model.platform proxy = true.
Proof.
  exact (proj2 (@rewriting_needs_valid_proxy Model.platform true
                  (Some "https://my-proxy.example/v1/") eq_refl)).
Defined.

(** ** The loop of the sanitizer *)

(** The loop, one iteration unfolded. *)
Lemma redact_from_step index params has :
  redact_from index params has =
    match URLSearchParams.entry_at params index with
    | None => (params, has)
    | Some (paramName, _) =>
        if is_sensitive paramName
        then redact_from (S index) (URLSearchParams.delete paramName params) true
        else redact_from (S index) params has
    end.
Proof.
  rewrite redact_from_equation_1. unfold Logic.inspect.
  assert (G : forall o (e : URLSearchParams.entry_at params index = o),
             redact_from_unfold_clause_1 index params (exist _ o e) has =
             match o with
             | None => (params, has)
             | Some (paramName, _) =>
                 if is_sensitive paramName
                 then redact_from (S index)
                        (URLSearchParams.delete paramName params) true
                 else redact_from (S index) params has
             end).
  { intros [[n v]|] e.
    - now rewrite redact_from_clause_1_equation_1.
    - now rewrite redact_from_clause_1_equation_2. }
  apply G.
Qed.

Lemma entry_at_In params index p :
  URLSearchParams.entry_at params index = Some p -> In p params.
Proof. apply nth_error_In. Qed.

Lemma entry_at_bound params index p :
  URLSearchParams.entry_at params index = Some p -> index < length params.
Proof. intros E. apply nth_error_Some. unfold URLSearchParams.entry_at in E. congruence. Qed.

Lemma entry_at_beyond params index :
  length params <= index -> URLSearchParams.entry_at params index = None.
Proof. apply nth_error_None. Qed.

Lemma delete_In name params p :
  In p (URLSearchParams.delete name params) <-> In p params /\ fst p <> name.
Proof.
  unfold URLSearchParams.delete. rewrite filter_In.
  rewrite negb_true_iff, String.eqb_neq. reflexivity.
Qed.

Lemma delete_length_le name params :
  length (URLSearchParams.delete name params) <= length params.
Proof. apply filter_length_le. Qed.

Lemma delete_length_lt name value params :
  In (name, value) params ->
  length (URLSearchParams.delete name params) < length params.
Proof.
  induction params as [|q rest IH]; [intros []|].
  intros [->|H]; cbn.
  - rewrite String.eqb_refl. cbn.
    pose proof (delete_length_le name rest).
    unfold URLSearchParams.delete in *. lia.
  - specialize (IH H). unfold URLSearchParams.delete in *.
    destruct (negb (fst q =? name)%string); cbn; lia.
Qed.

Lemma redact_from_clean_bounded k :
  forall index params has,
    length params - index <= k ->
    (forall p, In p params -> is_sensitive (fst p) = false) ->
    redact_from index params has = (params, has).
Proof.
  induction k as [|k IH]; intros index params has Hk Hclean;
    rewrite redact_from_step;
    destruct (URLSearchParams.entry_at params index) as [[n v]|] eqn:E;
    try reflexivity.
  - pose proof (entry_at_bound _ _ _ E). lia.
  - pose proof (Hclean _ (entry_at_In _ _ _ E)) as Hn. cbn [fst] in Hn. rewrite Hn.
    pose proof (entry_at_bound _ _ _ E).
    apply IH; [lia | exact Hclean].
Qed.

Lemma redact_from_clean index params has :
  (forall p, In p params -> is_sensitive (fst p) = false) ->
  redact_from index params has = (params, has).
Proof. apply (redact_from_clean_bounded (length params - index)), Nat.le_refl. Qed.

(** X8.  If no parameter has a denied name (in any case), the loop leaves
    the list as it is and does not set [hasSensitiveParams]: no marker is
    added. *)
Theorem redact_keeps_harmless_params (params : URLSearchParams.t) :
  (forall p, In p params -> is_sensitive (fst p) = false) ->
  redact_from 0 params false = (params, false).
Proof. apply redact_from_clean. Qed.

Lemma redact_keeps_harmless_params_witness :
  redact_from 0 [("alt", "sse"); ("pageSize", "10")] false
  = ([("alt", "sse"); ("pageSize", "10")], false).
Proof.
  apply (redact_keeps_harmless_params [("alt", "sse"); ("pageSize", "10")]).
  intros p [<-|[<-|[]]]; reflexivity.
Defined.

Lemma filter_all {A : Type} (l : list A) : filter (fun _ => true) l = l.
Proof. induction l as [|a l IH]; cbn; [reflexivity | now rewrite IH]. Qed.

Lemma filter_twice {A : Type} (f g : A -> bool) (l : list A) :
  filter g (filter f l) = filter (fun a => f a && g a) l.
Proof.
  induction l as [|a l IH]; cbn; [reflexivity|].
  destruct (f a); cbn; [destruct (g a)|]; now rewrite IH.
Qed.

Lemma redact_from_filter_bounded k :
  forall index params has,
    length params - index <= k ->
    exists keep, fst (redact_from index params has) = filter keep params.
Proof.
  induction k as [|k IH]; intros index params has Hk;
    rewrite redact_from_step;
    destruct (URLSearchParams.entry_at params index) as [[n v]|] eqn:E;
    try (exists (fun _ => true); cbn; now rewrite filter_all).
  - pose proof (entry_at_bound _ _ _ E). lia.
  - pose proof (entry_at_bound _ _ _ E).
    destruct (is_sensitive n).
    + pose proof (delete_length_le n params).
      destruct (IH (S index) (URLSearchParams.delete n params) true ltac:(lia))
        as [keep ->].
      eexists. unfold URLSearchParams.delete. apply filter_twice.
    + apply IH. lia.
Qed.

(** X9.  The parameters the loop leaves are the given ones with some of
    them dropped: nothing is added, reordered or changed. *)
Theorem redact_only_removes :
  forall (index : nat) (params : URLSearchParams.t) (has : bool),
    exists keep : string * string -> bool,
      fst (redact_from index params has) = filter keep params.
Proof.
  intros index params has.
  apply (redact_from_filter_bounded (length params - index)), Nat.le_refl.
Qed.

Lemma redact_from_flag_bounded k :
  forall index params has,
    length params - index <= k ->
    redact_from index params has = (params, has)
    \/ (snd (redact_from index params has) = true
        /\ length (fst (redact_from index params has)) < length params).
Proof.
  induction k as [|k IH]; intros index params has Hk;
    rewrite redact_from_step;
    destruct (URLSearchParams.entry_at params index) as [[n v]|] eqn:E;
    try (left; reflexivity).
  - pose proof (entry_at_bound _ _ _ E). lia.
  - pose proof (entry_at_bound _ _ _ E).
    destruct (is_sensitive n).
    + right.
      pose proof (delete_length_lt n v params (entry_at_In _ _ _ E)).
      destruct (IH (S index) (URLSearchParams.delete n params) true ltac:(lia))
        as [-> | [Hf Hl]]; cbn [fst snd].
      * split; [reflexivity | assumption].
      * split; [assumption | lia].
    + apply IH. lia.
Qed.

(** X10.  The marker is added exactly when a parameter was removed: the
    loop ends with [hasSensitiveParams] set if and only if the list it
    leaves is shorter than the list it was given, and with it unset the
    list is the given one. *)
Theorem redact_flag_iff_removed (params : URLSearchParams.t) :
  (snd (redact_from 0 params false) = true
   <-> length (fst (redact_from 0 params false)) < length params)
  /\ (snd (redact_from 0 params false) = false
      -> fst (redact_from 0 params false) = params).
Proof.
  destruct (redact_from_flag_bounded (length params) 0 params false
              ltac:(lia)) as [-> | [Hf Hl]]; cbn [fst snd].
  - split; [split; [discriminate | lia] | reflexivity].
  - split; [split; intros _; assumption|]. rewrite Hf. discriminate.
Qed.

Lemma redact_flag_iff_removed_witness :
  snd (redact_from 0 [("alt", "sse")] false) = false
  /\ fst (redact_from 0 [("alt", "sse")] false) = [("alt", "sse")].
Proof.
  split; [reflexivity|].
  exact (proj2 (redact_flag_iff_removed [("alt", "sse")]) eq_refl).
Defined.

(** X11.  When the first parameter has a denied name, the loop sets
    [hasSensitiveParams] and no parameter with exactly that name is left,
    wherever else in the list it occurred. *)
Theorem redact_removes_first_denied (name value : string)
    (rest : URLSearchParams.t) :
  is_sensitive name = true ->
  snd (redact_from 0 ((name, value) :: rest) false) = true
  /\ forall p, In p (fst (redact_from 0 ((name, value) :: rest) false)) ->
               fst p <> name.
Proof.
  intros Hs. rewrite redact_from_step. cbn [URLSearchParams.entry_at nth_error].
  rewrite Hs.
  set (params := URLSearchParams.delete name ((name, value) :: rest)).
  split.
  - destruct (redact_from_flag_bounded (length params) 1 params true ltac:(lia))
      as [-> | [Hf _]]; [reflexivity | exact Hf].
  - destruct (redact_from_filter_bounded (length params) 1 params true ltac:(lia))
      as [keep ->].
    intros p Hp. apply filter_In in Hp as [Hp _].
    now apply delete_In in Hp.
Qed.

Lemma redact_removes_first_denied_witness :
  snd (redact_from 0 [("Key", "AAA"); ("alt", "sse"); ("Key", "BBB")] false) = true
  /\ forall p,
       In p (fst (redact_from 0 [("Key", "AAA"); ("alt", "sse"); ("Key", "BBB")] false)) ->
       fst p <> "Key".
Proof.
  apply (redact_removes_first_denied "Key" "AAA" [("alt", "sse"); ("Key", "BBB")]).
  reflexivity.
Defined.

Lemma redact_single_name_bounded (name : string) k :
  forall index params has,
    length params - index <= k ->
    is_sensitive name = true ->
    (forall p, In p params -> is_sensitive (fst p) = true -> fst p = name) ->
    (exists j value, index <= j
                     /\ URLSearchParams.entry_at params j = Some (name, value)) ->
    redact_from index params has = (URLSearchParams.delete name params, true).
Proof.
  induction k as [|k IH]; intros index params has Hk Hs Hone (j & value & Hj & Ej);
    pose proof (entry_at_bound _ _ _ Ej) as Hb;
    rewrite redact_from_step;
    destruct (URLSearchParams.entry_at params index) as [[m v]|] eqn:E.
  - lia.
  - lia.
  - destruct (is_sensitive m) eqn:Hm.
    + pose proof (Hone _ (entry_at_In _ _ _ E) Hm) as Heq. cbn [fst] in Heq.
      subst m. apply redact_from_clean.
      intros p Hp. apply delete_In in Hp as [Hp Hne].
      destruct (is_sensitive (fst p)) eqn:Hq; [|reflexivity].
      elim Hne. now apply Hone.
    + assert (j <> index).
      { intros ->. rewrite E in Ej. injection Ej as -> _. congruence. }
      apply IH; try assumption; [lia|].
      exists j, value. split; [lia | assumption].
  - rewrite (entry_at_beyond params j) in Ej; [discriminate|].
    assert (length params <= index); [|lia].
    apply nth_error_None. exact E.
Qed.

(** X12.  When all the denied parameters of the list have one and the same
    name, spelled the same way, the loop removes them all: what is left is
    the list without the parameters of that name, none of them denied, and
    [hasSensitiveParams] is set. *)
Theorem redact_complete_for_one_name (name value : string)
    (params : URLSearchParams.t) :
  is_sensitive name = true ->
  In (name, value) params ->
  (forall p, In p params -> is_sensitive (fst p) = true -> fst p = name) ->
  redact_from 0 params false = (URLSearchParams.delete name params, true)
  /\ forall p, In p (URLSearchParams.delete name params) ->
               is_sensitive (fst p) = false.
Proof.
  intros Hs Hin Hone. split.
  - apply (redact_single_name_bounded name (length params)); try assumption; [lia|].
    apply In_nth_error in Hin as [j Hj].
    exists j, value. split; [lia | exact Hj].
  - intros p Hp. apply delete_In in Hp as [Hp Hne].
    destruct (is_sensitive (fst p)) eqn:Hq; [|reflexivity].
    elim Hne. now apply Hone.
Qed.

Lemma redact_complete_for_one_name_witness :
  redact_from 0 [("alt", "sse"); ("key", "AAA"); ("pageSize", "10"); ("key", "BBB")] false
  = ([("alt", "sse"); ("pageSize", "10")], true).
Proof.
  apply (redact_complete_for_one_name "key" "AAA"
           [("alt", "sse"); ("key", "AAA"); ("pageSize", "10"); ("key", "BBB")]).
  - reflexivity.
  - right. left. reflexivity.
  - intros p [<-|[<-|[<-|[<-|[]]]]]; cbn; intros H; try reflexivity; discriminate H.
Defined.

(** ** The interception shim, continued *)

Section ShimPaths.

Context {P : WebPlatform}.
Variable transport : fetchInput -> option RequestInit -> outcome Response.

(** What the rewriting branch of [patchedFetch] does, case by case.  The
    request is rebuilt if it was a [Request], and the transport is called
    with the caller's options.  A failure of either step is logged; if it
    has a text it is raised as a [NetworkError]; if [String(fetchError)]
    throws, the outer [catch] takes that for a rewriting error, logs it and
    the original input is dispatched. *)
Lemma patchedFetch_rewrite_path cfg input init proxy :
  rewriting_active cfg = true ->
  currentProxyUrl cfg = Some proxy ->
  includes (fst (normalize_input input)) TARGET_HOST = true ->
  exists sanitizedProxyUrl sanitizedTargetUrl,
    sanitizeUrlForDisplay proxy = Returned sanitizedProxyUrl
    /\ sanitizeUrlForDisplay (rewriteUrl (fst (normalize_input input)) proxy)
       = Returned sanitizedTargetUrl
    /\ patchedFetch transport cfg input init =
       match
         match snd (normalize_input input) with
         | Some req => obind (Request_new (rewriteUrl (fst (normalize_input input)) proxy) req)
                         (fun newReq => Returned (InRequest newReq))
         | None => Returned (InString (rewriteUrl (fst (normalize_input input)) proxy))
         end
       with
       | Returned target =>
           match transport target init with
           | Returned resp => ([Dispatch target init], Returned resp)
           | Thrown fetchError =>
               match error_text fetchError with
               | Returned text =>
                   ([Dispatch target init; Log LError FETCH_FAILED],
                    Thrown (VError ClsError "NetworkError"
                              (errorDetails text
                                 sanitizedProxyUrl sanitizedTargetUrl)))
               | Thrown _ =>
                   ([Dispatch target init; Log LError FETCH_FAILED;
                     Log LError REWRITE_FAILED; Dispatch input init],
                    transport input init)
               end
           end
       | Thrown fetchError =>
           match error_text fetchError with
           | Returned text =>
               ([Log LError FETCH_FAILED],
                Thrown (VError ClsError "NetworkError"
                          (errorDetails text
                             sanitizedProxyUrl sanitizedTargetUrl)))
           | Thrown _ =>
               ([Log LError FETCH_FAILED; Log LError REWRITE_FAILED;
                 Dispatch input init],
                transport input init)
           end
       end.
Proof.
  unfold rewriting_active. intros Ha Hp Hi.
  set (newUrl := rewriteUrl (fst (normalize_input input)) proxy).
  rewrite Hp in Ha. apply andb_prop in Ha as [He Ht]. cbn [truthy_opt] in Ht.
  destruct (sanitizeUrlForDisplay_returns proxy) as [sp Hsp].
  destruct (sanitizeUrlForDisplay_returns newUrl) as [st Hst].
  exists sp, st. split; [exact Hsp|]. split; [exact Hst|].
  assert (Hh : forall fetchError,
             on_fetch_error proxy newUrl fetchError
             = ([Log LError FETCH_FAILED],
                match error_text fetchError with
                | Returned text =>
                    Thrown (VError ClsError "NetworkError" (errorDetails text sp st))
                | Thrown e => Thrown e
                end)).
  { intros fetchError. unfold on_fetch_error. rewrite Ht, Hsp, Hst.
    destruct (error_text fetchError); reflexivity. }
  unfold patchedFetch, patchedFetch_with.
  rewrite Hp, He, Ht. cbn [negb orb].
  subst newUrl.
  destruct (normalize_input input) as [urlStr originalRequest].
  cbn [fst snd] in *. rewrite Hi.
  unfold originalFetch. cbn [lift bind try_catch app].
  destruct originalRequest as [req|].
  - destruct (Request_new (rewriteUrl urlStr proxy) req) as [newReq|e];
      cbn [obind bind try_catch app].
    + destruct (transport (InRequest newReq) init) as [resp|fetchError];
        cbn [try_catch]; [reflexivity|].
      rewrite Hh.
      destruct (error_text fetchError) as [text|te] eqn:Hx; [reflexivity|].
      cbn [bind try_catch app]. rewrite (error_text_throws_TypeError _ _ Hx).
      reflexivity.
    + rewrite Hh.
      destruct (error_text e) as [text|te] eqn:Hx; [reflexivity|].
      cbn [bind try_catch app]. rewrite (error_text_throws_TypeError _ _ Hx).
      reflexivity.
  - destruct (transport (InString (rewriteUrl urlStr proxy)) init)
      as [resp|fetchError]; cbn [try_catch]; [reflexivity|].
    rewrite Hh.
    destruct (error_text fetchError) as [text|te] eqn:Hx; [reflexivity|].
    cbn [bind try_catch app]. rewrite (error_text_throws_TypeError _ _ Hx).
    reflexivity.
Qed.

Lemma patchedFetch_inactive cfg input init :
  rewriting_active cfg = false ->
  patchedFetch transport cfg input init = originalFetch transport input init.
Proof.
  unfold rewriting_active, patchedFetch, patchedFetch_with.
  destruct (currentProxyUrl cfg) as [proxy|]; [|reflexivity].
  cbn [truthy_opt].
  destruct (isInterceptorEnabled cfg), (truthy proxy);
    cbn; intros H; try discriminate H; reflexivity.
Qed.

End ShimPaths.

(** X13.  While the interceptor is disabled, or has no proxy URL, or the
    proxy URL is empty, every call is handed to the real transport as it
    came, and ends as the transport ends: a response is returned and a
    failure is raised unchanged. *)
Theorem patchedFetch_passes_through_when_inactive {P : WebPlatform}
    (transport : fetchInput -> option RequestInit -> outcome Response)
    (cfg : Config) (input : fetchInput) (init : option RequestInit) :
  rewriting_active cfg = false ->
  patchedFetch transport cfg input init
  = ([Dispatch input init], transport input init).
Proof. apply patchedFetch_inactive. Qed.

Lemma patchedFetch_passes_through_when_inactive_witness :
  let transport := fun (_ : @fetchInput Model.platform)
                       (_ : option (@RequestInit Model.platform)) =>
                     Thrown (new_TypeError "Failed to fetch")
                     : outcome (@Response Model.platform) in
  let cfg := snd (@configure Model.platform true (Some "ftp://host")) in
  let input := InString "https://generativelanguage.googleapis.com/v1beta/models" in
  patchedFetch transport cfg input None
  = ([Dispatch input None], Thrown (new_TypeError "Failed to fetch")).
Proof.
  cbv zeta.
  apply (@patchedFetch_passes_through_when_inactive Model.platform
           (fun _ _ => Thrown (new_TypeError "Failed to fetch"))
           (snd (@configure Model.platform true (Some "ftp://host")))
           (InString "https://generativelanguage.googleapis.com/v1beta/models")
           None).
  vm_compute. reflexivity.
Defined.

(** X14.  A call with a URL string or a [URL] object that is rewritten and
    whose dispatch succeeds makes one call of the transport, with the
    rewritten URL as a string and the caller's options, and returns the
    transport's response as it is. *)
Theorem patchedFetch_returns_response {P : WebPlatform}
    (transport : fetchInput -> option RequestInit -> outcome Response)
    (cfg : Config) (input : fetchInput) (init : option RequestInit)
    (proxy : string) (resp : Response) :
  rewriting_active cfg = true ->
  currentProxyUrl cfg = Some proxy ->
  snd (normalize_input input) = None ->
  includes (fst (normalize_input input)) TARGET_HOST = true ->
  transport (InString (rewriteUrl (fst (normalize_input input)) proxy)) init
  = Returned resp ->
  patchedFetch transport cfg input init
  = ([Dispatch (InString (rewriteUrl (fst (normalize_input input)) proxy)) init],
     Returned resp).
Proof.
  intros Ha Hp Hn Hi Ht.
  destruct (patchedFetch_rewrite_path transport cfg input init proxy Ha Hp Hi)
    as (sp & st & _ & _ & ->).
  rewrite Hn, Ht. reflexivity.
Qed.

Lemma patchedFetch_returns_response_witness :
  let transport := fun (_ : @fetchInput Model.platform)
                       (_ : option (@RequestInit Model.platform)) =>
                     Returned "{}" : outcome (@Response Model.platform) in
  let cfg := snd (@configure Model.platform true (Some "https://my-proxy.example/v1")) in
  patchedFetch transport cfg
    (InString "https://generativelanguage.googleapis.com/v1beta/models") None
  = ([Dispatch
        (InString
           (rewriteUrl
              (fst (@normalize_input Model.platform
                      (InString "https://generativelanguage.googleapis.com/v1beta/models")))
              "https://my-proxy.example/v1"))
        None],
     Returned "{}").
Proof.
  cbv zeta.
  apply (@patchedFetch_returns_response Model.platform
           (fun _ _ => Returned "{}")
           (snd (@configure Model.platform true (Some "https://my-proxy.example/v1")))
           (InString "https://generativelanguage.googleapis.com/v1beta/models")
           None "https://my-proxy.example/v1" "{}"); vm_compute; reflexivity.
Defined.

(** X15.  A call with a [Request] object that is rewritten, and for which
    [new Request(newUrl, originalRequest)] returns, calls the transport
    first with that rebuilt request and the caller's options, whether this
    dispatch then succeeds or fails; if it succeeds, it is the only call
    and its response is returned as it is. *)
Theorem patchedFetch_rebuilds_request {P : WebPlatform}
    (transport : fetchInput -> option RequestInit -> outcome Response)
    (cfg : Config) (req newReq : Request) (init : option RequestInit)
    (proxy : string) :
  rewriting_active cfg = true ->
  currentProxyUrl cfg = Some proxy ->
  includes (Request_url req) TARGET_HOST = true ->
  Request_new (rewriteUrl (Request_url req) proxy) req = Returned newReq ->
  (exists rest,
     fst (patchedFetch transport cfg (InRequest req) init)
     = Dispatch (InRequest newReq) init :: rest)
  /\ forall resp,
       transport (InRequest newReq) init = Returned resp ->
       patchedFetch transport cfg (InRequest req) init
       = ([Dispatch (InRequest newReq) init], Returned resp).
Proof.
  intros Ha Hp Hi Hr.
  destruct (patchedFetch_rewrite_path transport cfg (InRequest req) init proxy
              Ha Hp Hi) as (sp & st & _ & _ & ->).
  cbn [normalize_input fst snd]. rewrite Hr. cbn [obind].
  split.
  - destruct (transport (InRequest newReq) init) as [resp|fetchError];
      [|destruct (error_text fetchError)]; eexists; reflexivity.
  - intros resp ->. reflexivity.
Qed.

Lemma patchedFetch_rebuilds_request_witness :
  let transport := fun (_ : @fetchInput Model.platform)
                       (_ : option (@RequestInit Model.platform)) =>
                     Returned "{}" : outcome (@Response Model.platform) in
  let cfg := snd (@configure Model.platform true (Some "https://my-proxy.example/v1")) in
  let req := {| Model.request_url :=
                  "https://generativelanguage.googleapis.com/v1beta/models";
                Model.request_method := "POST";
                Model.request_body := "{}" |} in
  patchedFetch transport cfg (InRequest req) None
  = ([Dispatch
        (InRequest {| Model.request_url := "https://my-proxy.example/v1/models";
                      Model.request_method := "POST";
                      Model.request_body := "{}" |})
        None],
     Returned "{}").
Proof.
  cbv zeta.
  apply (proj2 (@patchedFetch_rebuilds_request Model.platform
                  (fun _ _ => Returned "{}")
                  (snd (@configure Model.platform true
                          (Some "https://my-proxy.example/v1")))
                  {| Model.request_url :=
                       "https://generativelanguage.googleapis.com/v1beta/models";
                     Model.request_method := "POST";
                     Model.request_body := "{}" |}
                  {| Model.request_url := "https://my-proxy.example/v1/models";
                     Model.request_method := "POST";
                     Model.request_body := "{}" |}
                  None "https://my-proxy.example/v1"
                  eq_refl eq_refl eq_refl eq_refl) "{}").
  reflexivity.
Defined.

(** X16.  Whatever the configuration and the input, one call of
    [patchedFetch] calls the real transport at most twice, and every time
    with the options the caller gave.  It calls it at most once when every
    value the transport rejects with has a text (it is an [Error], or
    [String()] converts it): a second call, of the original input, is made
    only after [String(fetchError)] has thrown in the handler of the failed
    dispatch. *)
Theorem patchedFetch_dispatch_bound {P : WebPlatform}
    (transport : fetchInput -> option RequestInit -> outcome Response)
    (cfg : Config) (input : fetchInput) (init : option RequestInit) :
  length (dispatches (fst (patchedFetch transport cfg input init))) <= 2
  /\ (forall d, In d (dispatches (fst (patchedFetch transport cfg input init))) ->
                snd d = init)
  /\ ((forall target e, transport target init = Thrown e ->
                        has_string_form e = true) ->
      length (dispatches (fst (patchedFetch transport cfg input init))) <= 1).
Proof.
  destruct (rewriting_active cfg) eqn:Ha.
  2:{ rewrite (patchedFetch_inactive transport cfg input init Ha). cbn.
      split; [lia|]. split; [|intros _; lia]. intros d [<-|[]]. reflexivity. }
  destruct (currentProxyUrl cfg) as [proxy|] eqn:Hp.
  2:{ unfold rewriting_active in Ha. rewrite Hp, andb_false_r in Ha. discriminate. }
  destruct (includes (fst (normalize_input input)) TARGET_HOST) eqn:Hi.
  2:{ rewrite (patchedFetch_forwards_without_target_text transport cfg input init Hi).
      cbn. split; [lia|]. split; [|intros _; lia]. intros d [<-|[]]. reflexivity. }
  destruct (patchedFetch_rewrite_path transport cfg input init proxy Ha Hp Hi)
    as (sp & st & _ & _ & ->).
  destruct (match snd (normalize_input input) with
            | Some req => _
            | None => _
            end) as [target|e].
  - destruct (transport target init) as [resp|fetchError] eqn:Ht.
    + cbn. split; [lia|]. split; [|intros _; lia]. intros d [<-|[]]. reflexivity.
    + destruct (error_text fetchError) as [text|te] eqn:Hx; cbn.
      * split; [lia|]. split; [|intros _; lia]. intros d [<-|[]]. reflexivity.
      * split; [lia|]. split.
        -- intros d [<-|[<-|[]]]; reflexivity.
        -- intros Hall. specialize (Hall target fetchError Ht).
           unfold has_string_form in Hall. rewrite Hx in Hall. discriminate.
  - destruct (error_text e) as [text|te]; cbn.
    + split; [lia|]. split; [|intros _; lia]. intros d [].
    + split; [lia|]. split; [|intros _; lia]. intros d [<-|[]]. reflexivity.
Qed.

Lemma patchedFetch_dispatch_bound_witness :
  let transport := fun (_ : @fetchInput Model.platform)
                       (_ : option (@RequestInit Model.platform)) =>
                     Thrown (new_TypeError "Failed to fetch")
                     : outcome (@Response Model.platform) in
  let cfg := snd (@configure Model.platform true (Some "https://my-proxy.example/v1")) in
  let input := @InString (@URLobj Model.platform) (@Request Model.platform)
                 "https://generativelanguage.googleapis.com/v1beta/models" in
  let init := Some [("method", "POST")] in
  (forall target e, transport target init = Thrown e -> has_string_form e = true)
  /\ length (dispatches (fst (patchedFetch transport cfg input init))) <= 1.
Proof.
  cbv zeta.
  assert (H : forall (target : @fetchInput Model.platform) e,
             @Thrown (@Response Model.platform) (new_TypeError "Failed to fetch")
             = Thrown e ->
             has_string_form e = true)
    by (intros target e [= <-]; reflexivity).
  split; [exact H|].
  exact (proj2 (proj2 (@patchedFetch_dispatch_bound Model.platform
                         (fun _ _ => Thrown (new_TypeError "Failed to fetch"))
                         (snd (@configure Model.platform true
                                 (Some "https://my-proxy.example/v1")))
                         (InString "https://generativelanguage.googleapis.com/v1beta/models")
                         (Some [("method", "POST")]))) H).
Defined.



(** X18.  When the dispatch of a rewritten URL string fails with a value
    that has a text (the message of an [Error], the [String()] form of
    another value), the failure is logged and replaced, and the transport
    is not called again: the raised [NetworkError] has a message that
    contains that text and the rewritten URL as the sanitizer returns
    it. *)
Theorem patchedFetch_wraps_transport_failure {P : WebPlatform}
    (transport : fetchInput -> option RequestInit -> outcome Response)
    (cfg : Config) (s : string) (init : option RequestInit)
    (proxy : string) (fetchError : jsval) (text : string) :
  isInterceptorEnabled cfg = true ->
  currentProxyUrl cfg = Some proxy ->
  truthy proxy = true ->
  includes s TARGET_HOST = true ->
  transport (InString (rewriteUrl s proxy)) init = Thrown fetchError ->
  error_text fetchError = Returned text ->
  exists sanitizedTargetUrl message,
    sanitizeUrlForDisplay (rewriteUrl s proxy) = Returned sanitizedTargetUrl
    /\ patchedFetch transport cfg (InString s) init
       = ([Dispatch (InString (rewriteUrl s proxy)) init; Log LError FETCH_FAILED],
          Thrown (VError ClsError "NetworkError" message))
    /\ includes message text = true
    /\ includes message sanitizedTargetUrl = true.
Proof.
  intros He Hp Ht Hi Hf Hx.
  destruct (patchedFetch_transport_failure transport cfg s init proxy fetchError
              text He Hp Ht Hi Hf Hx) as (sp & st & Hsp & Hst & Hr).
  exists st, (errorDetails text sp st).
  split; [exact Hst|]. split; [exact Hr|].
  destruct (errorDetails_includes text sp st) as (H1 & _ & H3).
  split; assumption.
Qed.

Lemma patchedFetch_wraps_transport_failure_witness :
  let transport := fun (_ : @fetchInput Model.platform)
                       (_ : option (@RequestInit Model.platform)) =>
                     Thrown (new_TypeError "connection refused")
                     : outcome (@Response Model.platform) in
  let cfg := {| isInterceptorEnabled := true;
                currentProxyUrl := Some "https://my-proxy.example/v1" |} in
  exists message,
    snd (patchedFetch transport cfg
           (InString "https://generativelanguage.googleapis.com/v1beta/models?key=AAA")
           None)
    = Thrown (VError ClsError "NetworkError" message)
    /\ includes message "connection refused" = true.
Proof.
  cbv zeta.
  destruct (@patchedFetch_wraps_transport_failure Model.platform
              (fun _ _ => Thrown (new_TypeError "connection refused"))
              {| isInterceptorEnabled := true;
                 currentProxyUrl := Some "https://my-proxy.example/v1" |}
              "https://generativelanguage.googleapis.com/v1beta/models?key=AAA"
              None "https://my-proxy.example/v1"
              (new_TypeError "connection refused") "connection refused"
              eq_refl eq_refl eq_refl eq_refl eq_refl eq_refl)
    as (st & message & _ & Hr & Hm & _).
  exists message. split; [now rewrite Hr | exact Hm].
Defined.

(** ** The API error handler *)

Section HandlerFacts.

Import ApiErrorHandler.

Context {Date MessageRest SessionRest : Type}.
Variable clock : nat -> Date.
Variables sessionId modelMessageId errorMessage : string.

Lemma update_messages_untouched msgs tick :
  (forall m, In m msgs -> msg_id m <> modelMessageId) ->
  update_messages (MessageRest := MessageRest) clock modelMessageId errorMessage
    msgs tick = (msgs, tick).
Proof.
  revert tick. induction msgs as [|m rest IH]; intros tick H; [reflexivity|].
  cbn [update_messages].
  destruct (String.eqb_spec (msg_id m) modelMessageId) as [E|_].
  - now elim (H m (or_introl eq_refl)).
  - rewrite IH; [reflexivity|]. intros m' Hm'. apply H. now right.
Qed.

Lemma update_sessions_untouched (prev : list (SavedChatSession Date MessageRest SessionRest)) tick :
  (forall s, In s prev -> session_id s = sessionId ->
             forall m, In m (messages s) -> msg_id m <> modelMessageId) ->
  update_sessions clock sessionId modelMessageId errorMessage prev tick = (prev, tick).
Proof.
  revert tick. induction prev as [|s rest IH]; intros tick H; [reflexivity|].
  cbn [update_sessions].
  destruct (String.eqb_spec (session_id s) sessionId) as [E|_].
  - rewrite update_messages_untouched by (apply (H s (or_introl eq_refl) E)).
    rewrite IH by (intros s' Hs'; apply H; now right).
    now destruct s.
  - rewrite IH by (intros s' Hs'; apply H; now right). reflexivity.
Qed.

Lemma update_messages_marks msgs tick m' :
  In m' (fst (update_messages (MessageRest := MessageRest) clock modelMessageId
                errorMessage msgs tick)) ->
  msg_id m' = modelMessageId ->
  role m' = "error"
  /\ isLoading m' = Some false
  /\ exists body t,
       content m' = Some (body ++ LF ++ LF ++ "[" ++ errorMessage ++ "]")
       /\ generationEndTime m' = Some (clock t).
Proof.
  revert tick. induction msgs as [|m rest IH]; intros tick; [intros []|].
  cbn [update_messages].
  destruct (String.eqb_spec (msg_id m) modelMessageId) as [E|N].
  - destruct (update_messages clock modelMessageId errorMessage rest (S tick))
      as [rest' tick'] eqn:Er.
    cbn [fst]. intros [<-|Hin] Hid.
    + cbn. repeat split. eexists _, tick. split; reflexivity.
    + apply (IH (S tick)); [rewrite Er; exact Hin | exact Hid].
  - destruct (update_messages clock modelMessageId errorMessage rest tick)
      as [rest' tick'] eqn:Er.
    cbn [fst]. intros [<-|Hin] Hid.
    + now elim N.
    + apply (IH tick); [rewrite Er; exact Hin | exact Hid].
Qed.

Lemma update_sessions_marks (prev : list (SavedChatSession Date MessageRest SessionRest))
    tick s' m' :
  In s' (fst (update_sessions clock sessionId modelMessageId errorMessage prev tick)) ->
  session_id s' = sessionId ->
  In m' (messages s') ->
  msg_id m' = modelMessageId ->
  role m' = "error"
  /\ isLoading m' = Some false
  /\ exists body t,
       content m' = Some (body ++ LF ++ LF ++ "[" ++ errorMessage ++ "]")
       /\ generationEndTime m' = Some (clock t).
Proof.
  revert tick. induction prev as [|s rest IH]; intros tick; [intros []|].
  cbn [update_sessions].
  destruct (String.eqb_spec (session_id s) sessionId) as [E|N].
  - destruct (update_messages clock modelMessageId errorMessage (messages s) tick)
      as [msgs t] eqn:Em.
    destruct (update_sessions clock sessionId modelMessageId errorMessage rest t)
      as [rest' t'] eqn:Er.
    cbn [fst]. intros [<-|Hin] Hs Hm Hid.
    + cbn [messages] in Hm.
      apply (update_messages_marks (messages s) tick); [rewrite Em; exact Hm | exact Hid].
    + apply (IH t); [rewrite Er; exact Hin | assumption..].
  - destruct (update_sessions clock sessionId modelMessageId errorMessage rest tick)
      as [rest' t'] eqn:Er.
    cbn [fst]. intros [<-|Hin] Hs Hm Hid.
    + now elim N.
    + apply (IH tick); [rewrite Er; exact Hin | assumption..].
Qed.

Lemma update_messages_structure msgs tick :
  Forall2 (fun m m' : ChatMessage Date MessageRest =>
             msg_id m' = msg_id m
             /\ msg_rest m' = msg_rest m
             /\ (msg_id m <> modelMessageId -> m' = m))
    msgs (fst (update_messages clock modelMessageId errorMessage msgs tick)).
Proof.
  revert tick. induction msgs as [|m rest IH]; intros tick; [constructor|].
  cbn [update_messages].
  destruct (String.eqb_spec (msg_id m) modelMessageId) as [E|N].
  - specialize (IH (S tick)).
    destruct (update_messages clock modelMessageId errorMessage rest (S tick))
      as [rest' tick'].
    constructor; [|exact IH]. cbn. repeat split. intros H. now elim H.
  - specialize (IH tick).
    destruct (update_messages clock modelMessageId errorMessage rest tick)
      as [rest' tick'].
    constructor; [|exact IH]. now repeat split.
Qed.

Lemma messages_structure_refl (msgs : list (ChatMessage Date MessageRest)) :
  Forall2 (fun m m' : ChatMessage Date MessageRest =>
             msg_id m' = msg_id m
             /\ msg_rest m' = msg_rest m
             /\ (msg_id m <> modelMessageId -> m' = m))
    msgs msgs.
Proof. induction msgs; constructor; [now repeat split | assumption]. Qed.

Lemma update_sessions_structure (prev : list (SavedChatSession Date MessageRest SessionRest))
    tick :
  Forall2 (fun s s' : SavedChatSession Date MessageRest SessionRest =>
             session_id s' = session_id s
             /\ session_rest s' = session_rest s
             /\ (session_id s <> sessionId -> s' = s)
             /\ Forall2 (fun m m' : ChatMessage Date MessageRest =>
                           msg_id m' = msg_id m
                           /\ msg_rest m' = msg_rest m
                           /\ (msg_id m <> modelMessageId -> m' = m))
                  (messages s) (messages s'))
    prev (fst (update_sessions clock sessionId modelMessageId errorMessage prev tick)).
Proof.
  revert tick. induction prev as [|s rest IH]; intros tick; [constructor|].
  cbn [update_sessions].
  destruct (String.eqb_spec (session_id s) sessionId) as [E|N].
  - pose proof (update_messages_structure (messages s) tick) as Hm.
    destruct (update_messages clock modelMessageId errorMessage (messages s) tick)
      as [msgs t].
    specialize (IH t).
    destruct (update_sessions clock sessionId modelMessageId errorMessage rest t)
      as [rest' t'].
    constructor; [|exact IH]. cbn. repeat split; [|exact Hm].
    intros H. now elim H.
  - specialize (IH tick).
    destruct (update_sessions clock sessionId modelMessageId errorMessage rest tick)
      as [rest' t'].
    constructor; [|exact IH]. repeat split. apply messages_structure_refl.
Qed.

End HandlerFacts.

(** X19.  The function handed to [updateAndPersistSessions] keeps the shape
    of the store: the same sessions in the same order, each with its id and
    its other fields; a session with another id is returned as it is; in the
    session with the given id, the same messages in the same order, each
    with its id and its other fields, and a message with another id is
    returned as it is. *)
Theorem updater_keeps_structure {Date MessageRest SessionRest : Type}
    (clock : nat -> Date) (sessionId modelMessageId errorMessage : string)
    (prev : list (ApiErrorHandler.SavedChatSession Date MessageRest SessionRest)) :
  Forall2
    (fun s s' : ApiErrorHandler.SavedChatSession Date MessageRest SessionRest =>
       ApiErrorHandler.session_id s' = ApiErrorHandler.session_id s
       /\ ApiErrorHandler.session_rest s' = ApiErrorHandler.session_rest s
       /\ (ApiErrorHandler.session_id s <> sessionId -> s' = s)
       /\ Forall2
            (fun m m' : ApiErrorHandler.ChatMessage Date MessageRest =>
               ApiErrorHandler.msg_id m' = ApiErrorHandler.msg_id m
               /\ ApiErrorHandler.msg_rest m' = ApiErrorHandler.msg_rest m
               /\ (ApiErrorHandler.msg_id m <> modelMessageId -> m' = m))
            (ApiErrorHandler.messages s) (ApiErrorHandler.messages s'))
    prev
    (ApiErrorHandler.updater clock sessionId modelMessageId errorMessage prev).
Proof. apply update_sessions_structure. Qed.

Lemma updater_keeps_structure_witness :
  let other := {| ApiErrorHandler.session_id := "s2";
                  ApiErrorHandler.messages :=
                    [ {| ApiErrorHandler.msg_id := "m1";
                         ApiErrorHandler.role := "model";
                         ApiErrorHandler.content := Some "answer";
                         ApiErrorHandler.isLoading := Some true;
                         ApiErrorHandler.generationEndTime := @None nat;
                         ApiErrorHandler.msg_rest := tt |} ];
                  ApiErrorHandler.session_rest := tt |} in
  "s2" <> "s1"
  /\ ApiErrorHandler.updater (fun t : nat => t) "s1" "m1" "Error: boom" [other]
     = [other].
Proof.
  cbv zeta. split; [discriminate|].
  pose proof (@updater_keeps_structure nat unit unit (fun t => t) "s1" "m1"
                "Error: boom"
                [ {| ApiErrorHandler.session_id := "s2";
                     ApiErrorHandler.messages :=
                       [ {| ApiErrorHandler.msg_id := "m1";
                            ApiErrorHandler.role := "model";
                            ApiErrorHandler.content := Some "answer";
                            ApiErrorHandler.isLoading := Some true;
                            ApiErrorHandler.generationEndTime := @None nat;
                            ApiErrorHandler.msg_rest := tt |} ];
                     ApiErrorHandler.session_rest := tt |} ]) as H.
  destruct (ApiErrorHandler.updater _ _ _ _ _) as [|s' r']; [inversion H|].
  apply Forall2_cons_iff in H as [(_ & _ & Hsame & _) Hrest].
  inversion Hrest. f_equal. apply Hsame. discriminate.
Defined.

(** X20.  In what the updater returns, every message with the given id in a
    session with the given id has the role [error], is no longer loading,
    has an end time taken from the clock, and has a content that ends with
    two line feeds and the error message in square brackets. *)
Theorem updater_marks_message {Date MessageRest SessionRest : Type}
    (clock : nat -> Date) (sessionId modelMessageId errorMessage : string)
    (prev : list (ApiErrorHandler.SavedChatSession Date MessageRest SessionRest))
    (s' : ApiErrorHandler.SavedChatSession Date MessageRest SessionRest)
    (m' : ApiErrorHandler.ChatMessage Date MessageRest) :
  In s' (ApiErrorHandler.updater clock sessionId modelMessageId errorMessage prev) ->
  ApiErrorHandler.session_id s' = sessionId ->
  In m' (ApiErrorHandler.messages s') ->
  ApiErrorHandler.msg_id m' = modelMessageId ->
  ApiErrorHandler.role m' = "error"
  /\ ApiErrorHandler.isLoading m' = Some false
  /\ exists body t,
       ApiErrorHandler.content m'
       = Some (body ++ ApiErrorHandler.LF ++ ApiErrorHandler.LF
               ++ "[" ++ errorMessage ++ "]")
       /\ ApiErrorHandler.generationEndTime m' = Some (clock t).
Proof. apply update_sessions_marks. Qed.

Lemma updater_marks_message_witness :
  let msg := {| ApiErrorHandler.msg_id := "m1";
                ApiErrorHandler.role := "error";
                ApiErrorHandler.content :=
                  Some ("partial answer" ++ ApiErrorHandler.LF ++ ApiErrorHandler.LF
                        ++ "[" ++ "Error: boom" ++ "]");
                ApiErrorHandler.isLoading := Some false;
                ApiErrorHandler.generationEndTime := Some 0;
                ApiErrorHandler.msg_rest := tt |} in
  ApiErrorHandler.updater (fun t : nat => t) "s1" "m1" "Error: boom"
    [ {| ApiErrorHandler.session_id := "s1";
         ApiErrorHandler.messages :=
           [ {| ApiErrorHandler.msg_id := "m1";
                ApiErrorHandler.role := "model";
                ApiErrorHandler.content := Some "  partial answer  ";
                ApiErrorHandler.isLoading := Some true;
                ApiErrorHandler.generationEndTime := None;
                ApiErrorHandler.msg_rest := tt |} ];
         ApiErrorHandler.session_rest := tt |} ]
  = [ {| ApiErrorHandler.session_id := "s1";
         ApiErrorHandler.messages := [msg];
         ApiErrorHandler.session_rest := tt |} ]
  /\ ApiErrorHandler.role msg = "error".
Proof.
  cbv zeta. split; [vm_compute; reflexivity|].
  apply (@updater_marks_message nat unit unit (fun t => t) "s1" "m1" "Error: boom"
           [ {| ApiErrorHandler.session_id := "s1";
                ApiErrorHandler.messages :=
                  [ {| ApiErrorHandler.msg_id := "m1";
                       ApiErrorHandler.role := "model";
                       ApiErrorHandler.content := Some "  partial answer  ";
                       ApiErrorHandler.isLoading := Some true;
                       ApiErrorHandler.generationEndTime := None;
                       ApiErrorHandler.msg_rest := tt |} ];
                ApiErrorHandler.session_rest := tt |} ]
           {| ApiErrorHandler.session_id := "s1";
              ApiErrorHandler.messages :=
                [ {| ApiErrorHandler.msg_id := "m1";
                     ApiErrorHandler.role := "error";
                     ApiErrorHandler.content :=
                       Some ("partial answer" ++ ApiErrorHandler.LF
                             ++ ApiErrorHandler.LF ++ "[" ++ "Error: boom" ++ "]");
                     ApiErrorHandler.isLoading := Some false;
                     ApiErrorHandler.generationEndTime := Some 0;
                     ApiErrorHandler.msg_rest := tt |} ];
              ApiErrorHandler.session_rest := tt |}).
  - vm_compute. left. reflexivity.
  - reflexivity.
  - left. reflexivity.
  - reflexivity.
Defined.

(** X21.  If no session has the given id, or the session with that id has
    no message with the given message id, the updater returns the store it
    was given. *)
Theorem updater_without_target {Date MessageRest SessionRest : Type}
    (clock : nat -> Date) (sessionId modelMessageId errorMessage : string)
    (prev : list (ApiErrorHandler.SavedChatSession Date MessageRest SessionRest)) :
  (forall s, In s prev -> ApiErrorHandler.session_id s = sessionId ->
             forall m, In m (ApiErrorHandler.messages s) ->
                       ApiErrorHandler.msg_id m <> modelMessageId) ->
  ApiErrorHandler.updater clock sessionId modelMessageId errorMessage prev = prev.
Proof.
  intros H. unfold ApiErrorHandler.updater.
  now rewrite update_sessions_untouched.
Qed.

Lemma updater_without_target_witness :
  let prev := [ {| ApiErrorHandler.session_id := "s1";
                   ApiErrorHandler.messages :=
                     [ {| ApiErrorHandler.msg_id := "m1";
                          ApiErrorHandler.role := "model";
                          ApiErrorHandler.content := Some "answer";
                          ApiErrorHandler.isLoading := Some true;
                          ApiErrorHandler.generationEndTime := @None nat;
                          ApiErrorHandler.msg_rest := tt |} ];
                   ApiErrorHandler.session_rest := tt |} ] in
  ApiErrorHandler.updater (fun t : nat => t) "s1" "m2" "Error: boom" prev = prev.
Proof.
  cbv zeta.
  apply (@updater_without_target nat unit unit (fun t => t) "s1" "m2" "Error: boom").
  intros s [<-|[]] _ m [<-|[]]. cbn. discriminate.
Defined.

(** X22.  When the dispatch of a rewritten URL (given as a string or a
    [URL] object) fails with a value that has a text, the error the call
    raises is not taken for an abort by [handleApiError]: the handler calls
    the updater with the text for network failures, the error's message as
    the technical details. *)
Theorem handleApiError_reports_interceptor_failure {P : WebPlatform}
    {Date MessageRest SessionRest : Type}
    (transport : fetchInput -> option RequestInit -> outcome Response)
    (cfg : Config) (input : fetchInput) (init : option RequestInit)
    (proxy : string) (fetchError : jsval) (text : string)
    (clock : nat -> Date) (sessionId modelMessageId : string)
    (errorPrefix : option string) :
  rewriting_active cfg = true ->
  currentProxyUrl cfg = Some proxy ->
  snd (normalize_input input) = None ->
  includes (fst (normalize_input input)) TARGET_HOST = true ->
  transport (InString (rewriteUrl (fst (normalize_input input)) proxy)) init
  = Thrown fetchError ->
  error_text fetchError = Returned text ->
  exists message,
    snd (patchedFetch transport cfg input init)
    = Thrown (VError ClsError "NetworkError" message)
    /\ snd (ApiErrorHandler.handleApiError
              (MessageRest := MessageRest) (SessionRest := SessionRest)
              clock (VError ClsError "NetworkError" message)
              sessionId modelMessageId errorPrefix)
       = Returned
           (Some (ApiErrorHandler.updater clock sessionId modelMessageId
                    (ApiErrorHandler.networkMessage
                       match errorPrefix with Some p => p | None => "Error" end
                       message))).
Proof.
  intros Ha Hp Hn Hi Ht Hx.
  destruct (patchedFetch_rewrite_path transport cfg input init proxy Ha Hp Hi)
    as (sp & st & _ & _ & ->).
  rewrite Hn, Ht, Hx. cbn [snd].
  eexists. split; reflexivity.
Qed.

Lemma handleApiError_reports_interceptor_failure_witness :
  let transport := fun (_ : @fetchInput Model.platform)
                       (_ : option (@RequestInit Model.platform)) =>
                     Thrown (new_TypeError "Failed to fetch")
                     : outcome (@Response Model.platform) in
  let cfg := snd (@configure Model.platform true (Some "https://my-proxy.example/v1")) in
  let input := @InString (@URLobj Model.platform) (@Request Model.platform)
                 "https://generativelanguage.googleapis.com/v1beta/models" in
  exists message,
    snd (patchedFetch transport cfg input None)
    = Thrown (VError ClsError "NetworkError" message)
    /\ snd (ApiErrorHandler.handleApiError
              (MessageRest := unit) (SessionRest := unit)
              (fun t : nat => t) (VError ClsError "NetworkError" message)
              "s1" "m1" None)
       = Returned
           (Some (ApiErrorHandler.updater (fun t : nat => t) "s1" "m1"
                    (ApiErrorHandler.networkMessage "Error" message))).
Proof.
  cbv zeta.
  apply (@handleApiError_reports_interceptor_failure Model.platform nat unit unit
           (fun _ _ => Thrown (new_TypeError "Failed to fetch"))
           (snd (@configure Model.platform true (Some "https://my-proxy.example/v1")))
           (InString "https://generativelanguage.googleapis.com/v1beta/models")
           None "https://my-proxy.example/v1"
           (new_TypeError "Failed to fetch") "Failed to fetch"
           (fun t => t) "s1" "m1" None); vm_compute; reflexivity.
Defined.

(** ** Mounting, continued *)



